(** * SMASH collision core: Action, ScatterActionMulti and Angles

    A shallow embedding of [src/action.cc], [src/scatteractionmulti.cc] and
    [src/include/Angles.h], and the properties of the specification that
    are stated about them.

    Conventions of the embedding.
    - A C++ [double] is a real number ([R] of the Standard Library): the
      arithmetic is the exact one, rounding, infinities and NaN are outside
      the model.  Every theorem that goes through a square root or a
      division carries the hypothesis that keeps the C++ operation defined
      (non-negative radicand, non-zero divisor).
    - A member function that mutates its object, draws random numbers, logs
      or throws is a function from a machine state to a result and the next
      machine state.  The state that is left behind by a [throw] is kept: it
      is what a caller that catches the exception sees.
    - [assert] is the one of a build without [NDEBUG]: a false assertion
      stops the call.
    - [std::vector::operator[]] outside the vector is undefined behaviour in
      C++; the embedding stops the call with [OutOfBounds]. *)

From Stdlib Require Import Reals Lra Psatz.
From Stdlib Require Import List String Ascii ZArith NArith Bool.
From Stdlib Require Import DecimalString.
Import ListNotations.

Open Scope R_scope.

(** ** Results of a call *)

(** The exception classes that the embedded code throws.  [char_array] is
    the [char[50]] that [Angles::set_costheta] throws. *)
Inductive exception : Type :=
| runtime_error (what : string)
| InvalidResonanceFormation (what : string)
| InvalidScatterActionMulti (what : string)
| char_array (what : string).

Inductive failure : Type :=
| Thrown (e : exception)
| AssertionFailed
| OutOfBounds.

Inductive result (A : Type) : Type :=
| Ok (a : A)
| Fail (f : failure).
Arguments Ok {A} a.
Arguments Fail {A} f.

(** [method S A]: a member function on an object (or machine state) [S]
    that returns an [A]. *)
Definition method (S A : Type) : Type := S -> result A * S.

Definition ret {S A : Type} (a : A) : method S A := fun s => (Ok a, s).

Definition bind {S A B : Type} (m : method S A) (k : A -> method S B)
  : method S B :=
  fun s => match m s with
           | (Ok a, s') => k a s'
           | (Fail f, s') => (Fail f, s')
           end.

Definition raise {S A : Type} (f : failure) : method S A :=
  fun s => (Fail f, s).

Definition throw {S A : Type} (e : exception) : method S A :=
  raise (Thrown e).

Definition get {S : Type} : method S S := fun s => (Ok s, s).
Definition put {S : Type} (s : S) : method S unit := fun _ => (Ok tt, s).
Definition modify {S : Type} (f : S -> S) : method S unit :=
  fun s => (Ok tt, f s).

Definition assert {S : Type} (b : bool) : method S unit :=
  if b then ret tt else raise AssertionFailed.

Declare Scope method_scope.
Delimit Scope method_scope with method.
Notation "x <- m ;; k" := (bind m (fun x => k))
  (at level 61, m at next level, right associativity) : method_scope.
Notation "m ;;; k" := (bind m (fun _ => k))
  (at level 61, right associativity) : method_scope.

(** Comparisons of doubles as booleans. *)
Definition Rltb (x y : R) : bool := if Rlt_dec x y then true else false.
Definition Rleb (x y : R) : bool := if Rle_dec x y then true else false.

(** ** The random source

    The process-wide generator is the stream of the values it will return;
    a draw takes the head.  [drand48] and [Random::uniform(0., 1.)] both
    return a value of [0, 1) (see [uniform01]). *)
Definition RNG : Type := nat -> R.

Definition next (g : RNG) : R * RNG := (g 0%nat, fun n => g (S n)).

Definition uniform01 (g : RNG) : Prop := forall n, 0 <= g n < 1.

(** ** Angles.h *)
Module Angles.

Record t : Type := mk { phi_ : R; costheta_ : R }.

(** [Angles::Angles() : phi_(0), costheta_(0)] *)
Definition new : t := {| phi_ := 0; costheta_ := 0 |}.

(** [M_PI] *)
Definition M_PI : R := PI.


(** The object and the generator that its methods touch. *)
Definition distribute_isotropically (a : t) (g : RNG) : t * RNG :=
  let (u1, g1) := next g in
  let a1 := {| phi_ := 2 * M_PI * u1; costheta_ := costheta_ a |} in
  let (u2, g2) := next g1 in
  ({| phi_ := phi_ a1; costheta_ := -1 + 2 * u2 |}, g2).


(** The member is assigned before the range is checked, so the object
    holds the refused value when the exception leaves the call.  The
    number that [snprintf] appends to the message is left out. *)
Definition set_costheta (newcos : R) : method t unit :=
  fun a =>
    let a1 := {| phi_ := phi_ a; costheta_ := newcos |} in
    if Rltb (costheta_ a1) (-1) || Rltb 1 (costheta_ a1) then
      (Fail (Thrown (char_array
         "Wrong value for costheta (must be in [-1,1]): ")), a1)
    else (Ok tt, a1).


Definition costheta (a : t) : R := costheta_ a.
Definition phi (a : t) : R := phi_ a.
Definition sintheta (a : t) : R := sqrt (1 - costheta_ a * costheta_ a).
Definition x (a : t) : R := sintheta a * cos (phi_ a).
Definition y (a : t) : R := sintheta a * sin (phi_ a).
Definition z (a : t) : R := costheta_ a.
Definition theta (a : t) : R := acos (costheta_ a).

(** What the class keeps true of an object it hands out: the stored
    value is a cosine, it lies in [-1, 1]. *)
Definition costheta_in_range (a : t) : Prop := -1 <= costheta_ a <= 1.

End Angles.

(** ** Four-vectors and three-vectors

    Only their uses are in the sources; the operations are the usual ones
    of the Minkowski metric (+, -, -, -). *)
Module ThreeVector.

Record t : Type := mk { x1 : R; x2 : R; x3 : R }.

Definition zero : t := mk 0 0 0.
Definition add (u v : t) : t := mk (x1 u + x1 v) (x2 u + x2 v) (x3 u + x3 v).
Definition opp (u : t) : t := mk (- x1 u) (- x2 u) (- x3 u).
(** [v * a] *)
Definition scale (u : t) (a : R) : t := mk (x1 u * a) (x2 u * a) (x3 u * a).
(** [v / a] *)
Definition div (u : t) (a : R) : t := mk (x1 u / a) (x2 u / a) (x3 u / a).
(** [u * v], the scalar product *)
Definition dot (u v : t) : R := x1 u * x1 v + x2 u * x2 v + x3 u * x3 v.
Definition sqr (u : t) : R := dot u u.

End ThreeVector.

Module FourVector.

Record t : Type := mk { x0 : R; x1 : R; x2 : R; x3 : R }.

Definition zero : t := mk 0 0 0 0.
Definition make (e : R) (p : ThreeVector.t) : t :=
  mk e (ThreeVector.x1 p) (ThreeVector.x2 p) (ThreeVector.x3 p).
Definition threevec (v : t) : ThreeVector.t :=
  ThreeVector.mk (x1 v) (x2 v) (x3 v).
(** [u += v] *)
Definition add (u v : t) : t :=
  mk (x0 u + x0 v) (x1 u + x1 v) (x2 u + x2 v) (x3 u + x3 v).
(** [u /= a] *)
Definition div (u : t) (a : R) : t :=
  mk (x0 u / a) (x1 u / a) (x2 u / a) (x3 u / a).
Definition sqr (v : t) : R :=
  x0 v * x0 v - ThreeVector.sqr (threevec v).
(** Modelled from the spec: [FourVector::abs], the invariant mass of a
    four-momentum. *)
Definition abs (v : t) : R := sqrt (sqr v).
(** Modelled from the spec: [FourVector::velocity], the velocity of the
    frame in which the four-momentum is at rest. *)
Definition velocity (v : t) : ThreeVector.t :=
  ThreeVector.div (threevec v) (x0 v).
(** Modelled from the spec: [FourVector::lorentz_boost], the components
    of the four-vector in the frame that moves with velocity [v]. *)
Definition lorentz_boost (u : t) (v : ThreeVector.t) : t :=
  let gamma := 1 / sqrt (1 - ThreeVector.sqr v) in
  let xprime_0 := gamma * (x0 u - ThreeVector.dot (threevec u) v) in
  let constantpart := gamma / (gamma + 1) * (xprime_0 + x0 u) in
  make xprime_0
       (ThreeVector.add (threevec u)
                        (ThreeVector.opp (ThreeVector.scale v constantpart))).

End FourVector.

(** ** Process types, species and particles *)

(** The enumerators of [ProcessType] that the sources name, the value an
    action starts with ([None_]) and, under [Other], every enumerator that
    these files do not name. *)
Inductive ProcessType : Type :=
| None_
| Elastic
| Wall
| StringSoft
| StringHard
| MultiParticleThreePionsToOmega
| Other (code : Z).

Definition ProcessType_eqb (a b : ProcessType) : bool :=
  match a, b with
  | None_, None_ | Elastic, Elastic | Wall, Wall
  | StringSoft, StringSoft | StringHard, StringHard
  | MultiParticleThreePionsToOmega, MultiParticleThreePionsToOmega => true
  | Other c, Other d => Z.eqb c d
  | _, _ => false
  end.

(** [PdgCode], by its number.  Process ids ([uint32_t]) are in [N]: they
    are compared and printed, never computed with. *)
Definition PdgCode : Type := Z.

Module Pdg.
Definition pi_z : PdgCode := 0x111%Z.
Definition pi_p : PdgCode := 0x211%Z.
Definition pi_m : PdgCode := (- 0x211)%Z.
Definition omega : PdgCode := 0x223%Z.
(** Modelled from the spec: [PdgCode::is_pion], one of the three pion
    charge states. *)
Definition is_pion (c : PdgCode) : bool :=
  Z.eqb c pi_z || Z.eqb c pi_p || Z.eqb c pi_m.
End Pdg.

(** What the sources read of a [ParticleType]. *)
Module ParticleType.
Record t : Type := mk {
  name : string;
  mass : R;
  min_mass_kinematic : R;
  is_stable : bool;
  isospin3_rel : R;
  pdgcode : PdgCode;
  is_baryon : bool
}.
End ParticleType.

Module HistoryData.
Record t : Type := mk {
  collisions_per_particle : Z;
  id_process : N;
  process_type : ProcessType;
  time_last_collision : R;
  parents : list Z
}.
Definition initial : t := mk 0 0 None_ 0 [].
End HistoryData.

Module ParticleData.

Record t : Type := mk {
  id : Z;
  type : ParticleType.t;
  momentum : FourVector.t;
  position : FourVector.t;
  history : HistoryData.t
}.

Definition pdgcode (p : t) : PdgCode := ParticleType.pdgcode (type p).
Definition is_baryon (p : t) : bool := ParticleType.is_baryon (type p).
Definition get_history (p : t) : HistoryData.t := history p.

(** Modelled from the spec: [set_4momentum(mass, three-momentum)], the
    four-momentum of that mass with that three-momentum. *)
Definition set_4momentum (m : R) (mom : ThreeVector.t) (p : t) : t :=
  mk (id p) (type p)
     (FourVector.make (sqrt (m * m + ThreeVector.sqr mom)) mom)
     (position p) (history p).

Definition set_4position (pos : FourVector.t) (p : t) : t :=
  mk (id p) (type p) (momentum p) pos (history p).

(** Modelled from the spec: [boost_momentum(v)]. *)
Definition boost_momentum (v : ThreeVector.t) (p : t) : t :=
  mk (id p) (type p) (FourVector.lorentz_boost (momentum p) v)
     (position p) (history p).

(** Modelled from the spec: [set_history], which stamps the collision
    count, the process id and type, the time and the back-references to
    the incoming particles. *)
Definition set_history (ncoll : Z) (pid : N) (pt : ProcessType)
           (time : R) (plist : list t) (p : t) : t :=
  mk (id p) (type p) (momentum p) (position p)
     (HistoryData.mk ncoll pid pt time (map id plist)).

End ParticleData.

Definition ParticleList : Type := list ParticleData.t.

(** [std::to_string] of an unsigned integer. *)
Definition to_string (n : N) : string :=
  NilEmpty.string_of_uint (N.to_uint n).

(** [std::to_string] of an [int]. *)
Definition to_string_int (z : Z) : string :=
  NilZero.string_of_int (Z.to_int z).

(** A candidate channel: the outgoing species, the weight and the process
    type. *)
Module CollisionBranch.
Record t : Type := mk {
  particle_types : list ParticleType.t;
  weight : R;
  get_type : ProcessType
}.

(** Modelled from the spec: [particle_list], one particle of each
    outgoing species, with nothing else of it set yet. *)
Definition particle_list (b : t) : ParticleList :=
  map (fun ty => ParticleData.mk (-1) ty FourVector.zero FourVector.zero
                                 HistoryData.initial)
      (particle_types b).
End CollisionBranch.

(** ** The collaborators of the collision core

    The particle collection, the Pauli blocker, the quantum-number
    snapshot, the resonance mass samplers and a few constants are used by
    the embedded files and defined elsewhere. *)
Class Collaborators : Type := {
  Particles : Type;
  (** [particles->update(old_state, new_state, do_replace)]; the new state
      is passed by reference and comes back as the second component. *)
  Particles_update :
    Particles -> ParticleList -> ParticleList -> bool -> Particles * ParticleList;
  PauliBlocker : Type;
  phasespace_dens :
    PauliBlocker -> ThreeVector.t -> ThreeVector.t -> Particles -> PdgCode ->
    ParticleList -> R;
  QuantumNumbers : Type;
  QuantumNumbers_of : ParticleList -> QuantumNumbers;
  (** [before != after] *)
  QuantumNumbers_neq : QuantumNumbers -> QuantumNumbers -> bool;
  report_deviations : QuantumNumbers -> QuantumNumbers -> string;
  ID_PROCESS_PHOTON : N;
  sample_resonance_mass : ParticleType.t -> R -> R -> RNG -> R * RNG;
  sample_resonance_masses :
    ParticleType.t -> ParticleType.t -> R -> RNG -> (R * R) * RNG;
  (** [choose_channel(reaction_channels, total_weight)], which draws from
      the random source and points to one of the channels. *)
  choose_channel :
    list CollisionBranch.t -> R -> RNG -> CollisionBranch.t * RNG;
  (** [std::to_string] of a double, [static_cast<int>] of a process type *)
  to_string_double : R -> string;
  ProcessType_to_int : ProcessType -> Z
}.

(** Modelled from the spec: [pCM], the centre-of-mass momentum of two
    particles of masses [mass_a] and [mass_b] at the energy [sqrts], by the
    relativistic two-body formula. *)
Definition pCM (sqrts mass_a mass_b : R) : R :=
  let s := sqrts * sqrts in
  sqrt ((s - (mass_a + mass_b) * (mass_a + mass_b)) *
        (s - (mass_a - mass_b) * (mass_a - mass_b)) / (4 * s)).

(** ** action.cc *)

(** What a call leaves outside the objects: the lines it logs and the
    calls it makes to [Particles::update] and to [check_conservation]. *)
Inductive level : Type := Debug | Warn | Error.

(** The text of a log line is kept short: the numbers and the particles
    that the code prints with it are left out, but for the error line of
    [check_conservation]. *)
Inductive event : Type :=
| Log (lvl : level) (msg : string)
| Call_update (old_state new_state : ParticleList) (do_replace : bool)
| Call_check_conservation (id_process : N).

(** A potential on a lattice, [value_at(r, value)]: the value at [r], or
    nothing when [r] is outside the lattice. *)
Definition Lattice : Type := ThreeVector.t -> option R.

(** [Potentials::force_scale], a [std::pair<double, int>] per species. *)
Definition Potentials : Type := ParticleType.t -> R * Z.

Module Action.

(** The members of [Action]; a null pointer is [None]. *)
Record t : Type := mk {
  incoming_particles_ : ParticleList;
  outgoing_particles_ : ParticleList;
  time_of_execution_ : R;
  process_type_ : ProcessType;
  UB_lat_ : option Lattice;
  UI3_lat_ : option Lattice;
  pot_ : option Potentials
}.

Definition set_outgoing_particles_ (out : ParticleList) (a : t) : t :=
  mk (incoming_particles_ a) out (time_of_execution_ a) (process_type_ a)
     (UB_lat_ a) (UI3_lat_ a) (pot_ a).

Definition set_process_type_ (pt : ProcessType) (a : t) : t :=
  mk (incoming_particles_ a) (outgoing_particles_ a) (time_of_execution_ a)
     pt (UB_lat_ a) (UI3_lat_ a) (pot_ a).

End Action.

Section ActionModel.
Context `{Collaborators}.
Import Action.
Local Open Scope method_scope.
Local Open Scope string_scope.

(** The machine state of a call on an action: the action itself, the
    shared particle collection, the random source and what was logged
    and called so far (latest last). *)
Record state (O : Type) : Type := mkState {
  this : O;
  particles : Particles;
  random : RNG;
  events : list event
}.
Arguments mkState {O}.
Arguments this {O}.
Arguments particles {O}.
Arguments random {O}.
Arguments events {O}.

Definition emit {O : Type} (e : event) : method (state O) unit :=
  modify (fun s => mkState (this s) (particles s) (random s) (events s ++ [e])).

Definition set_this {O : Type} (o : O) : method (state O) unit :=
  modify (fun s => mkState o (particles s) (random s) (events s)).

Definition set_particles {O : Type} (ps : Particles) : method (state O) unit :=
  modify (fun s => mkState (this s) ps (random s) (events s)).

(** [Random::uniform(0., 1.)] *)
Definition uniform {O : Type} : method (state O) R :=
  fun s => let (u, g) := next (random s) in
           (Ok u, mkState (this s) (particles s) g (events s)).

(** A sampler of a collaborator, run on the random source of the state. *)
Definition sample {O A : Type} (f : RNG -> A * RNG) : method (state O) A :=
  fun s => let (a, g) := f (random s) in
           (Ok a, mkState (this s) (particles s) g (events s)).

(** [v[i]] *)
Definition at_ {O A : Type} (v : list A) (i : nat) : method (state O) A :=
  match nth_error v i with
  | Some a => ret a
  | None => raise OutOfBounds
  end.

Definition names (l : ParticleList) : string :=
  fold_left (fun acc p => acc ++ ParticleType.name (ParticleData.type p)) l "".

(** [Action::is_pauli_blocked]: the loop over the outgoing particles. *)
Fixpoint is_pauli_blocked_loop (p_bl : PauliBlocker) (a : t)
         (out : ParticleList) : method (state t) bool :=
  match out with
  | [] => ret false
  | p :: rest =>
      if ParticleData.is_baryon p then
        s <- get ;;
        let f := phasespace_dens p_bl
                   (FourVector.threevec (ParticleData.position p))
                   (FourVector.threevec (ParticleData.momentum p))
                   (particles s) (ParticleData.pdgcode p)
                   (incoming_particles_ a) in
        u <- uniform ;;
        if Rltb u f then
          emit (Log Debug "Action is pauli-blocked") ;;;
          ret true
        else is_pauli_blocked_loop p_bl a rest
      else is_pauli_blocked_loop p_bl a rest
  end.

Definition is_pauli_blocked (p_bl : PauliBlocker) : method (state t) bool :=
  s <- get ;;
  let a := this s in
  if ProcessType_eqb (process_type_ a) Wall then ret false
  else is_pauli_blocked_loop p_bl a (outgoing_particles_ a).

Definition get_interaction_point (a : t) : FourVector.t :=
  let interaction_point :=
    fold_left (fun acc part => FourVector.add acc (ParticleData.position part))
              (incoming_particles_ a) FourVector.zero in
  FourVector.div interaction_point (INR (List.length (incoming_particles_ a))).

Definition get_potential_at_interaction_point (a : t) : R * R :=
  let r := FourVector.threevec (get_interaction_point a) in
  let UB := match UB_lat_ a with Some lat => lat r | None => None end in
  let UI3 := match UI3_lat_ a with Some lat => lat r | None => None end in
  let B_pot := match UB with Some v => v | None => 0 end in
  let I3_pot := match UI3 with Some v => v | None => 0 end in
  (B_pot, I3_pot).

(** The force scale of a species, [(0.0, 0)] without potentials. *)
Definition force_scale (a : t) (ty : ParticleType.t) : R * Z :=
  match pot_ a with
  | Some pot => pot ty
  | None => (0, 0%Z)
  end.

(** The two running sums [(scale_B, scale_I3)] of
    [kinetic_energy_cms], after the incoming species are added and the
    outgoing ones subtracted. *)
Definition scales (a : t) (p_out_types : list ParticleType.t) : R * R :=
  let after_in :=
    fold_left (fun '(scale_B, scale_I3) p_in =>
                 let scale := force_scale a (ParticleData.type p_in) in
                 (scale_B + fst scale,
                  scale_I3 + IZR (snd scale) *
                             ParticleType.isospin3_rel (ParticleData.type p_in)))
              (incoming_particles_ a) (0, 0) in
  fold_left (fun '(scale_B, scale_I3) p_out =>
               let scale := force_scale a p_out in
               (scale_B - fst scale,
                scale_I3 - IZR (snd scale) * ParticleType.isospin3_rel p_out))
            p_out_types after_in.

Section WithSqrtS.
(** [sqrt_s()], which the embedded functions call and these files do not
    define. *)
Variable sqrt_s : t -> R.

(** [kinetic_energy_cms(potentials, p_out_types)] *)
Definition kinetic_energy_cms_of (a : t) (potentials : R * R)
           (p_out_types : list ParticleType.t) : R :=
  let '(scale_B, scale_I3) := scales a p_out_types in
  let B_pot_diff := fst potentials * scale_B in
  let I3_pot_diff := snd potentials * scale_I3 in
  sqrt_s a + B_pot_diff + I3_pot_diff.

(** [kinetic_energy_cms()] *)
Definition kinetic_energy_cms (a : t) : R :=
  kinetic_energy_cms_of a (get_potential_at_interaction_point a)
                        (map ParticleData.type (outgoing_particles_ a)).

Definition sample_masses : method (state t) (R * R) :=
  s <- get ;;
  let a := this s in
  p_a <- at_ (outgoing_particles_ a) 0 ;;
  p_b <- at_ (outgoing_particles_ a) 1 ;;
  let t_a := ParticleData.type p_a in
  let t_b := ParticleData.type p_b in
  let masses := (ParticleType.mass t_a, ParticleType.mass t_b) in
  let cms_kin_energy := kinetic_energy_cms a in
  if Rltb cms_kin_energy
          (ParticleType.min_mass_kinematic t_a +
           ParticleType.min_mass_kinematic t_b)
  then
    in_0 <- at_ (incoming_particles_ a) 0 ;;
    in_1 <- at_ (incoming_particles_ a) 1 ;;
    let reaction :=
      ParticleType.name (ParticleData.type in_0) ++
      ParticleType.name (ParticleData.type in_1) ++ "→" ++
      ParticleType.name t_a ++ ParticleType.name t_b in
    throw (InvalidResonanceFormation
             (reaction ++ ": not enough energy, " ++
              to_string_double cms_kin_energy ++ " < " ++
              to_string_double (ParticleType.min_mass_kinematic t_a) ++
              " + " ++
              to_string_double (ParticleType.min_mass_kinematic t_b)))
  else if negb (ParticleType.is_stable t_a) && ParticleType.is_stable t_b
  then
    m <- sample (sample_resonance_mass t_a (ParticleType.mass t_b)
                                       cms_kin_energy) ;;
    ret (m, snd masses)
  else if negb (ParticleType.is_stable t_b) && ParticleType.is_stable t_a
  then
    m <- sample (sample_resonance_mass t_b (ParticleType.mass t_a)
                                       cms_kin_energy) ;;
    ret (fst masses, m)
  else if negb (ParticleType.is_stable t_a) &&
          negb (ParticleType.is_stable t_b)
  then sample (sample_resonance_masses t_a t_b cms_kin_energy)
  else ret masses.

(** [Angles::threevec()], the direction [(x(), y(), z())]. *)
Definition threevec (phitheta : Angles.t) : ThreeVector.t :=
  ThreeVector.mk (Angles.x phitheta) (Angles.y phitheta) (Angles.z phitheta).

(** [p_a] and [p_b] are addresses of the first two places of the vector:
    the vector is read or written where they are dereferenced, in the
    warning ([p_a->pdgcode()]) and in the two assignments. *)
Definition sample_angles (masses : R * R) : method (state t) unit :=
  s <- get ;;
  let a := this s in
  let out := outgoing_particles_ a in
  let cms_kin_energy := kinetic_energy_cms a in
  let pcm := pCM cms_kin_energy (fst masses) (snd masses) in
  (if negb (Rltb 0 pcm) then
     p_a <- at_ out 0 ;;
     emit (Log Warn "Particle: radial momentum") ;;;
     emit (Log Warn "Ektot, m_a, m_b")
   else ret tt) ;;;
  phitheta <- sample (Angles.distribute_isotropically Angles.new) ;;
  p_a <- at_ out 0 ;;
  let p_a' :=
    ParticleData.set_4momentum (fst masses)
      (ThreeVector.scale (threevec phitheta) pcm) p_a in
  set_this (set_outgoing_particles_ (p_a' :: skipn 1 out) a) ;;;
  p_b <- at_ out 1 ;;
  let p_b' :=
    ParticleData.set_4momentum (snd masses)
      (ThreeVector.scale (ThreeVector.opp (threevec phitheta)) pcm) p_b in
  set_this (set_outgoing_particles_ (p_a' :: p_b' :: skipn 2 out) a) ;;;
  emit (Log Debug "p_a, p_b").

Definition sample_2body_phasespace : method (state t) unit :=
  s <- get ;;
  assert (Nat.eqb (List.length (outgoing_particles_ (this s))) 2) ;;;
  masses <- sample_masses ;;
  sample_angles masses.

End WithSqrtS.

Definition check_conservation (id_process : N) : method (state t) unit :=
  emit (Call_check_conservation id_process) ;;;
  s <- get ;;
  let a := this s in
  let before := QuantumNumbers_of (incoming_particles_ a) in
  let after := QuantumNumbers_of (outgoing_particles_ a) in
  if QuantumNumbers_neq before after then
    let particle_names :=
      names (incoming_particles_ a) ++ " vs. " ++
      names (outgoing_particles_ a) ++ String (ascii_of_nat 10) "" in
    let err_msg := report_deviations before after in
    emit (Log Error (particle_names ++ err_msg)) ;;;
    if ProcessType_eqb (process_type_ a) StringSoft ||
       ProcessType_eqb (process_type_ a) StringHard
    then ret tt
    else if N.eqb id_process ID_PROCESS_PHOTON then
      throw (runtime_error "Conservation laws violated in photon process")
    else
      throw (runtime_error ("Conservation laws violated in process " ++
                            to_string id_process))
  else ret tt.

(** The history of [perform] on one outgoing particle. *)
Definition stamp (a : t) (id_process : N) (p : ParticleData.t)
  : ParticleData.t :=
  if negb (ProcessType_eqb (process_type_ a) Wall) then
    ParticleData.set_history
      (HistoryData.collisions_per_particle (ParticleData.get_history p) + 1)
      id_process (process_type_ a) (time_of_execution_ a)
      (incoming_particles_ a) p
  else p.

Definition perform (id_process : N) : method (state t) unit :=
  assert (negb (N.eqb id_process 0)) ;;;
  s <- get ;;
  let a := this s in
  let stamped := map (stamp a id_process) (outgoing_particles_ a) in
  let do_replace :=
    negb (ProcessType_eqb (process_type_ a) Elastic) &&
    negb (ProcessType_eqb (process_type_ a) Wall) in
  emit (Call_update (incoming_particles_ a) stamped do_replace) ;;;
  let (ps, new_state) :=
    Particles_update (particles s) (incoming_particles_ a) stamped do_replace in
  set_particles ps ;;;
  set_this (set_outgoing_particles_ new_state a) ;;;
  emit (Log Debug "Particle map now has elements.") ;;;
  if match UB_lat_ a, UI3_lat_ a with None, None => true | _, _ => false end
  then check_conservation id_process
  else ret tt.

End ActionModel.

Arguments mkState {H O}.
Arguments this {H O}.
Arguments particles {H O}.
Arguments random {H O}.
Arguments events {H O}.

(** ** scatteractionmulti.cc *)
Module ScatterActionMulti.

(** The members of [ScatterActionMulti]: those of [Action] and its own. *)
Record t : Type := mk {
  action : Action.t;
  reaction_channels_ : list CollisionBranch.t;
  total_probability_ : R;
  partial_probability_ : R
}.

Definition set_action (a : Action.t) (m : t) : t :=
  mk a (reaction_channels_ m) (total_probability_ m) (partial_probability_ m).

End ScatterActionMulti.

Section ScatterActionMultiModel.
Context `{Collaborators}.
Import ScatterActionMulti.
Local Open Scope method_scope.
Local Open Scope string_scope.

Definition get_total_weight (m : t) : R := total_probability_ m.
Definition get_partial_weight (m : t) : R := partial_probability_ m.

(** Modelled from the spec: [total_momentum_of_outgoing_particles], the
    combined four-momentum of the incoming particles, which the outgoing
    ones share. *)
Definition total_momentum_of_outgoing_particles (a : Action.t)
  : FourVector.t :=
  fold_left (fun mom p => FourVector.add mom (ParticleData.momentum p))
            (Action.incoming_particles_ a) FourVector.zero.

Definition three_different_pions (data_a data_b data_c : ParticleData.t)
  : bool :=
  let pdg_a := ParticleData.pdgcode data_a in
  let pdg_b := ParticleData.pdgcode data_b in
  let pdg_c := ParticleData.pdgcode data_c in
  (Pdg.is_pion pdg_a && Pdg.is_pion pdg_b && Pdg.is_pion pdg_c) &&
  (negb (Z.eqb pdg_a pdg_b) && negb (Z.eqb pdg_b pdg_c) &&
   negb (Z.eqb pdg_c pdg_a)).

Definition annihilation : method (state t) unit :=
  s <- get ;;
  let m := this s in
  let a := action m in
  let out := Action.outgoing_particles_ a in
  if negb (Nat.eqb (List.length out) 1) then
    throw (InvalidScatterActionMulti
             ("Annihilation: Incorrect number of particles in final state: "
              ++ to_string (N.of_nat (List.length out)) ++ "."))
  else
    p <- at_ out 0 ;;
    let p' :=
      ParticleData.set_4momentum
        (FourVector.abs (total_momentum_of_outgoing_particles a))
        (ThreeVector.mk 0 0 0) p in
    set_this (set_action (Action.set_outgoing_particles_ (p' :: skipn 1 out) a) m) ;;;
    emit (Log Debug "Momentum of the new particle").

Definition generate_final_state : method (state t) unit :=
  emit (Log Debug "Incoming particles") ;;;
  s <- get ;;
  let m := this s in
  proc <- sample (choose_channel (reaction_channels_ m) (total_probability_ m)) ;;
  let a1 :=
    Action.set_outgoing_particles_ (CollisionBranch.particle_list proc)
      (Action.set_process_type_ (CollisionBranch.get_type proc) (action m)) in
  set_this (mk a1 (reaction_channels_ m) (total_probability_ m)
               (CollisionBranch.weight proc)) ;;;
  emit (Log Debug "Chosen channel") ;;;
  match Action.process_type_ a1 with
  | MultiParticleThreePionsToOmega => annihilation
  | pt =>
      throw (InvalidScatterActionMulti
               ("ScatterActionMulti::generate_final_state: Invalid process type "
                ++ to_string_int (ProcessType_to_int pt) ++ " was requested."))
  end ;;;
  s <- get ;;
  let m := this s in
  let a := action m in
  let middle_point := get_interaction_point a in
  let boosted :=
    map (fun new_particle =>
           ParticleData.set_4position middle_point
             (ParticleData.boost_momentum
                (ThreeVector.opp
                   (FourVector.velocity
                      (total_momentum_of_outgoing_particles a)))
                new_particle))
        (Action.outgoing_particles_ a) in
  set_this (set_action (Action.set_outgoing_particles_ boosted a) m).

End ScatterActionMultiModel.

(** ** Vocabulary of the properties *)

Ltac run :=
  unfold bind, ret, raise, throw, get, put, modify, emit, set_this,
         set_particles, uniform, sample, assert, at_; cbn.

(** The generator after [k] draws. *)
Definition shift (k : nat) (g : RNG) : RNG := fun n => g (k + n)%nat.

(** The index of the first density that exceeds its draw, the [k]-th
    density being compared with the [k]-th draw. *)
Fixpoint first_blocked (dens : list R) (g : RNG) : option nat :=
  match dens with
  | [] => None
  | f :: rest =>
      if Rltb (g 0%nat) f then Some 0%nat
      else option_map S (first_blocked rest (shift 1 g))
  end.

Section Vocabulary.
Context `{Collaborators}.
Import Action.

(** [before != after] in [check_conservation]. *)
Definition snapshots_differ (a : t) : bool :=
  QuantumNumbers_neq (QuantumNumbers_of (incoming_particles_ a))
                     (QuantumNumbers_of (outgoing_particles_ a)).

Definition is_string_process (pt : ProcessType) : bool :=
  ProcessType_eqb pt StringSoft || ProcessType_eqb pt StringHard.

(** The two exceptions of [check_conservation]: the one of the photon
    process and the one that names the process id. *)
Definition photon_violation : exception :=
  runtime_error "Conservation laws violated in photon process".

Definition process_violation (id_process : N) : exception :=
  runtime_error ("Conservation laws violated in process " ++
                 to_string id_process)%string.

(** The phase-space density that [is_pauli_blocked] asks for at a
    particle. *)
Definition density_at (p_bl : PauliBlocker) (a : t) (ps : Particles)
           (p : ParticleData.t) : R :=
  phasespace_dens p_bl
    (FourVector.threevec (ParticleData.position p))
    (FourVector.threevec (ParticleData.momentum p))
    ps (ParticleData.pdgcode p) (incoming_particles_ a).

(** The densities at the baryons of a particle list, in its order. *)
Definition densities_of (p_bl : PauliBlocker) (a : t) (ps : Particles)
           (out : ParticleList) : list R :=
  map (density_at p_bl a ps) (filter ParticleData.is_baryon out).

Definition densities (p_bl : PauliBlocker) (s : state t) : list R :=
  densities_of p_bl (this s) (particles s) (outgoing_particles_ (this s)).

End Vocabulary.

(** ** A small world to run the model in

    A particle collection that is the list of its particles, a Pauli
    blocker that answers one density everywhere, the snapshot of a
    particle list that is the sum of its PDG numbers, resonance masses
    that are the next draw, and the first channel of the list as the
    chosen one. *)
Module World.

Definition ids (l : ParticleList) : list Z := map ParticleData.id l.

Definition update (ps old_state new_state : ParticleList) (do_replace : bool)
  : ParticleList * ParticleList :=
  if do_replace then
    (filter (fun p => negb (existsb (Z.eqb (ParticleData.id p)) (ids old_state))) ps
     ++ new_state, new_state)
  else
    (map (fun p =>
            match find (fun on => Z.eqb (ParticleData.id (fst on)) (ParticleData.id p))
                       (combine old_state new_state) with
            | Some (_, n) =>
                ParticleData.mk (ParticleData.id p) (ParticleData.type n)
                  (ParticleData.momentum n) (ParticleData.position n)
                  (ParticleData.history n)
            | None => p
            end) ps,
     new_state).

Definition snapshot (l : ParticleList) : Z :=
  fold_left (fun acc p => (acc + ParticleData.pdgcode p)%Z) l 0%Z.

#[local] Instance collaborators : Collaborators := {|
  Particles := ParticleList;
  Particles_update := update;
  PauliBlocker := R;
  phasespace_dens := fun f _ _ _ _ _ => f;
  QuantumNumbers := Z;
  QuantumNumbers_of := snapshot;
  QuantumNumbers_neq := fun x y => negb (Z.eqb x y);
  report_deviations := fun _ _ => "Deviation"%string;
  ID_PROCESS_PHOTON := 4294967295%N;
  sample_resonance_mass := fun _ _ _ g => next g;
  sample_resonance_masses := fun _ _ _ g => ((g 0%nat, g 1%nat), shift 2 g);
  choose_channel :=
    fun l _ g => (hd (CollisionBranch.mk [] 0 None_) l, shift 1 g);
  to_string_double := fun _ => "?"%string;
  ProcessType_to_int := fun _ => 0%Z
|}.

Definition species (name : string) (mass : R) (stable : bool)
           (pdg : PdgCode) (baryon : bool) : ParticleType.t :=
  ParticleType.mk name mass mass stable 0 pdg baryon.

Definition pi_plus : ParticleType.t := species "π⁺" (7 / 50) true Pdg.pi_p false.
Definition pi_minus : ParticleType.t := species "π⁻" (7 / 50) true Pdg.pi_m false.
Definition pi_zero : ParticleType.t := species "π⁰" (7 / 50) true Pdg.pi_z false.
Definition omega : ParticleType.t := species "ω" (783 / 1000) false Pdg.omega false.
Definition proton : ParticleType.t := species "p" (938 / 1000) true 0x2212%Z true.
Definition neutron : ParticleType.t := species "n" (938 / 1000) true 0x2112%Z true.

(** A particle of a species with a four-momentum, at the origin. *)
Definition particle (i : Z) (ty : ParticleType.t) (mom : FourVector.t)
  : ParticleData.t :=
  ParticleData.mk i ty mom FourVector.zero HistoryData.initial.

Definition at_rest (i : Z) (ty : ParticleType.t) : ParticleData.t :=
  particle i ty (FourVector.mk (ParticleType.mass ty) 0 0 0).

Definition action (incoming outgoing : ParticleList) (pt : ProcessType)
  : Action.t :=
  Action.mk incoming outgoing 0 pt None None None.

Definition half : RNG := fun _ => 1 / 2.

(** The energy of the incoming particles, which the examples give in
    the frame of their centre of mass. *)
Definition sqrt_s (a : Action.t) : R :=
  fold_left (fun e p => e + FourVector.x0 (ParticleData.momentum p))
            (Action.incoming_particles_ a) 0.

Definition start {O : Type} (o : O) (ps : ParticleList) : state O :=
  mkState o ps half [].

End World.

Section Thresholds.
Context `{Collaborators}.
Variable sqrt_s : Action.t -> R.

(** The sum of the minimum kinematic masses of two outgoing particles. *)
Definition threshold (p_a p_b : ParticleData.t) : R :=
  ParticleType.min_mass_kinematic (ParticleData.type p_a) +
  ParticleType.min_mass_kinematic (ParticleData.type p_b).

(** The exception of [sample_masses] for too little energy. *)
Definition not_enough_energy (a : Action.t)
           (in_0 in_1 p_a p_b : ParticleData.t) : exception :=
  InvalidResonanceFormation
    ((ParticleType.name (ParticleData.type in_0) ++
      ParticleType.name (ParticleData.type in_1) ++ "→" ++
      ParticleType.name (ParticleData.type p_a) ++
      ParticleType.name (ParticleData.type p_b)) ++
     ": not enough energy, " ++
     to_string_double (kinetic_energy_cms sqrt_s a) ++ " < " ++
     to_string_double (ParticleType.min_mass_kinematic (ParticleData.type p_a)) ++
     " + " ++
     to_string_double (ParticleType.min_mass_kinematic (ParticleData.type p_b)))%string.

(** [sample_masses] failed for too little energy. *)
Definition is_insufficient_energy {A : Type} (r : result A) : Prop :=
  exists what, r = Fail (Thrown (InvalidResonanceFormation what)).

End Thresholds.

Module Decay.
Import World.

(** An omega at rest, alone in its action, with a proton and a neutron
    as the outgoing pair. *)
Definition lone_omega : Action.t :=
  action [at_rest 1 omega] [at_rest (-1) proton; at_rest (-1) neutron] None_.

Definition s0 : state Action.t := start lone_omega [].

End Decay.

Section Commit.
Context `{Collaborators}.
Import Action.

(** What a call added to the events of the state it started from. *)
Definition new_events {O : Type} (s s' : state O) : list event :=
  skipn (List.length (events s)) (events s').

(** The flag that [perform] passes to [Particles::update]. *)
Definition do_replace_of (pt : ProcessType) : bool :=
  negb (ProcessType_eqb pt Elastic) && negb (ProcessType_eqb pt Wall).

(** The outgoing particles as [perform] hands them to the collection. *)
Definition stamped (a : t) (id_process : N) : ParticleList :=
  map (stamp a id_process) (outgoing_particles_ a).

(** The state of [perform] between the update of the collection and the
    check of the conservation laws. *)
Definition committed (id_process : N) (s : state t) : state t :=
  let a := this s in
  let upd := Particles_update (particles s) (incoming_particles_ a)
                              (stamped a id_process)
                              (do_replace_of (process_type_ a)) in
  mkState (set_outgoing_particles_ (snd upd) a) (fst upd) (random s)
          (events s ++
           [Call_update (incoming_particles_ a) (stamped a id_process)
                        (do_replace_of (process_type_ a));
            Log Debug "Particle map now has elements."]).

(** No potential lattice is attached to the action. *)
Definition no_lattice (a : t) : Prop :=
  UB_lat_ a = None /\ UI3_lat_ a = None.

(** The history that [perform] writes on an outgoing particle [p]. *)
Definition performed_history (a : t) (id_process : N) (p : ParticleData.t)
  : HistoryData.t :=
  HistoryData.mk
    (HistoryData.collisions_per_particle (ParticleData.history p) + 1)
    id_process (process_type_ a) (time_of_execution_ a)
    (map ParticleData.id (incoming_particles_ a)).

End Commit.

Module Collision.
Import World.

(** Two pions of half a GeV each that meet head-on, and the collection
    they are in. *)
Definition pions : ParticleList :=
  [particle 1 pi_plus (FourVector.mk (1 / 2) 0 0 (12 / 25));
   particle 2 pi_minus (FourVector.mk (1 / 2) 0 0 (- (12 / 25)))].

Definition elastic : Action.t := action pions pions Elastic.

(** The same pair as a process that makes a lone proton of it: the
    snapshots differ. *)
Definition violating (pt : ProcessType) : Action.t :=
  action pions [at_rest (-1) proton] pt.

Definition s_elastic : state Action.t := start elastic pions.
Definition s_violating : state Action.t := start (violating Elastic) pions.

End Collision.

(** The direction of azimuth [2 pi u1] and of polar cosine [-1 + 2 u2]. *)
Definition direction_of_draws (u1 u2 : R) : ThreeVector.t :=
  let phi := 2 * PI * u1 in
  let costheta := -1 + 2 * u2 in
  ThreeVector.mk (sqrt (1 - costheta * costheta) * cos phi)
                 (sqrt (1 - costheta * costheta) * sin phi)
                 costheta.

(** The direction that [sample_angles] draws from a random source. *)
Definition drawn_direction (g : RNG) : ThreeVector.t :=
  threevec (fst (Angles.distribute_isotropically Angles.new g)).

(** A four-momentum of positive energy and positive invariant mass, as the
    four-momentum of a massive particle on its mass shell is. *)
Definition timelike_future (v : FourVector.t) : Prop :=
  0 < FourVector.x0 v /\
  ThreeVector.sqr (FourVector.threevec v) < FourVector.x0 v * FourVector.x0 v.

Section Fusion.
Context `{Collaborators}.
Import ScatterActionMulti.

(** The state of [generate_final_state] once the channel [proc] is
    chosen and taken over, [g] being the random source after the
    choice. *)
Definition with_channel (proc : CollisionBranch.t) (g : RNG) (s : state t)
  : state t :=
  let m := this s in
  mkState
    (mk (Action.set_outgoing_particles_ (CollisionBranch.particle_list proc)
           (Action.set_process_type_ (CollisionBranch.get_type proc) (action m)))
        (reaction_channels_ m) (total_probability_ m)
        (CollisionBranch.weight proc))
    (particles s) g
    (events s ++ [Log Debug "Incoming particles"; Log Debug "Chosen channel"]).

(** The outgoing particles of the action of a state. *)
Definition outgoing (s : state t) : ParticleList :=
  Action.outgoing_particles_ (action (this s)).

(** The exception of [annihilation] for a number [n] of outgoing
    particles that is not one. *)
Definition incorrect_number (n : nat) : exception :=
  InvalidScatterActionMulti
    ("Annihilation: Incorrect number of particles in final state: " ++
     to_string (N.of_nat n) ++ ".")%string.

End Fusion.

(** The mean of three four-positions. *)
Definition mean3 (u v w : FourVector.t) : FourVector.t :=
  FourVector.div (FourVector.add (FourVector.add u v) w) 3.

Module ThreePions.
Import World.

(** A pion of each charge at rest, at three points of space-time. *)
Definition at_point (p : ParticleData.t) (x : FourVector.t) : ParticleData.t :=
  ParticleData.set_4position x p.

Definition pions : ParticleList :=
  [at_point (at_rest 1 pi_plus) (FourVector.mk 0 3 0 0);
   at_point (at_rest 2 pi_minus) (FourVector.mk 0 0 3 0);
   at_point (at_rest 3 pi_zero) (FourVector.mk 0 0 0 3)].

Definition to_omega : CollisionBranch.t :=
  CollisionBranch.mk [omega] 1 MultiParticleThreePionsToOmega.

Definition fusion : ScatterActionMulti.t :=
  ScatterActionMulti.mk (action pions [] None_) [to_omega] 1 0.

Definition s0 : state ScatterActionMulti.t := start fusion pions.

End ThreePions.

From Stdlib Require Import Permutation.

(** ** numerics.h *)

Section Numerics.
(** [really_small] and [small_number] of constants.h. *)
Variables really_small small_number : R.

(** [almost_equal<double>] *)
Definition almost_equal (x y : R) : bool :=
  Rleb (Rabs (x - y)) really_small ||
  Rleb (Rabs (x - y)) (0.5 * really_small * (Rabs x + Rabs y)).

(** [almost_equal_physics<double>] *)
Definition almost_equal_physics (x y : R) : bool :=
  Rleb (Rabs (x - y)) small_number ||
  Rleb (Rabs (x - y)) (0.5 * small_number * (Rabs x + Rabs y)).

End Numerics.

Section Scales.
Context `{Collaborators}.
Import Action.

(** One step of each loop of [kinetic_energy_cms]. *)
Definition add_scale (a : t) (acc : R * R) (ty : ParticleType.t) : R * R :=
  (fst acc + fst (force_scale a ty),
   snd acc + IZR (snd (force_scale a ty)) * ParticleType.isospin3_rel ty).

Definition sub_scale (a : t) (acc : R * R) (ty : ParticleType.t) : R * R :=
  (fst acc - fst (force_scale a ty),
   snd acc - IZR (snd (force_scale a ty)) * ParticleType.isospin3_rel ty).

End Scales.

Section TwoBody.
Context `{Collaborators}.
Variable sqrt_s : Action.t -> R.
Import Action.

(** The centre-of-mass momentum that [sample_angles] computes. *)
Definition pcm_of (a : t) (masses : R * R) : R :=
  pCM (kinetic_energy_cms sqrt_s a) (fst masses) (snd masses).

(** The two warnings of [sample_angles] for a momentum that is not
    positive. *)
Definition momentum_warnings (pcm : R) : list event :=
  if Rltb 0 pcm then []
  else [Log Warn "Particle: radial momentum"; Log Warn "Ektot, m_a, m_b"].

(** The first two outgoing particles after [sample_angles]. *)
Definition first_after (a : t) (masses : R * R) (g : RNG)
           (p_a : ParticleData.t) : ParticleData.t :=
  ParticleData.set_4momentum (fst masses)
    (ThreeVector.scale (drawn_direction g) (pcm_of a masses)) p_a.

Definition second_after (a : t) (masses : R * R) (g : RNG)
           (p_b : ParticleData.t) : ParticleData.t :=
  ParticleData.set_4momentum (snd masses)
    (ThreeVector.scale (ThreeVector.opp (drawn_direction g)) (pcm_of a masses))
    p_b.

(** The pole masses of a pair of particles. *)
Definition pole_masses (p_a p_b : ParticleData.t) : R * R :=
  (ParticleType.mass (ParticleData.type p_a),
   ParticleType.mass (ParticleData.type p_b)).

End TwoBody.

Section Reports.
Context `{Collaborators}.
Import Action.
Local Open Scope string_scope.

(** The error line of [check_conservation]. *)
Definition violation_report (a : t) : event :=
  Log Error
      ((names (incoming_particles_ a) ++ " vs. " ++
        names (outgoing_particles_ a) ++ String (ascii_of_nat 10) "") ++
       report_deviations (QuantumNumbers_of (incoming_particles_ a))
                         (QuantumNumbers_of (outgoing_particles_ a))).

(** The number of baryons among the outgoing particles of an action. *)
Definition outgoing_baryons (a : t) : nat :=
  List.length (filter ParticleData.is_baryon (outgoing_particles_ a)).

End Reports.

(** ** scatteractionmulti.cc: the reactions that are offered *)

Section Offers.
Context `{Collaborators}.
Import ScatterActionMulti.
Local Open Scope method_scope.

(** What the file uses of the species and of the class it derives from:
    [ParticleType::try_find], [get_partial_width], [spin_degeneracy],
    [spectral_function], the constant [hbarc], [sqrt_s()] and
    [add_process] of the branch lists. *)
Variable try_find : PdgCode -> option ParticleType.t.
Variable get_partial_width : ParticleType.t -> R -> list ParticleType.t -> R.
Variable spin_degeneracy : ParticleType.t -> Z.
Variable spectral_function : ParticleType.t -> R -> R.
Variable hbarc : R.
Variable sqrt_s : Action.t -> R.
Variable add_process :
  CollisionBranch.t -> list CollisionBranch.t -> R ->
  list CollisionBranch.t * R.

(** [add_reaction]: the channels and the total probability are passed by
    reference to [add_process]. *)
Definition add_reaction (p : CollisionBranch.t) : method (state t) unit :=
  s <- get ;;
  let m := this s in
  let (channels, total) :=
    add_process p (reaction_channels_ m) (total_probability_ m) in
  set_this (mk (action m) channels total (partial_probability_ m)).

Definition probability_three_pi_to_one (type_out : ParticleType.t)
           (dt gcell_vol : R) : method (state t) R :=
  s <- get ;;
  let a := action (this s) in
  in_0 <- at_ (Action.incoming_particles_ a) 0 ;;
  in_1 <- at_ (Action.incoming_particles_ a) 1 ;;
  in_2 <- at_ (Action.incoming_particles_ a) 2 ;;
  let e1 := FourVector.x0 (ParticleData.momentum in_0) in
  let e2 := FourVector.x0 (ParticleData.momentum in_1) in
  let e3 := FourVector.x0 (ParticleData.momentum in_2) in
  let sqrts := sqrt_s a in
  let gamma_decay :=
    get_partial_width type_out sqrts
      [ParticleData.type in_0; ParticleData.type in_1; ParticleData.type in_2] in
  let spin_deg := spin_degeneracy type_out in
  let I_3_pi := 0.07514 in
  let ph_sp_3 :=
    1 / (8 * PI * PI * PI) * 1 / (16 * sqrts * sqrts) * I_3_pi in
  let spec_f_val := spectral_function type_out sqrts in
  ret (dt / (gcell_vol * gcell_vol) * PI / (4 * e1 * e2 * e3) *
       gamma_decay / ph_sp_3 * spec_f_val * hbarc ^ 5 * IZR spin_deg).

Definition add_possible_reactions (dt gcell_vol : R) (three_to_one : bool)
  : method (state t) unit :=
  s <- get ;;
  let incoming := Action.incoming_particles_ (action (this s)) in
  if three_to_one && Nat.eqb (List.length incoming) 3 then
    in_0 <- at_ incoming 0 ;;
    in_1 <- at_ incoming 1 ;;
    in_2 <- at_ incoming 2 ;;
    if three_different_pions in_0 in_1 in_2 then
      match try_find 0x223%Z with
      | Some type_omega =>
          prob <- probability_three_pi_to_one type_omega dt gcell_vol ;;
          add_reaction (CollisionBranch.mk [type_omega] prob
                          MultiParticleThreePionsToOmega)
      | None => ret tt
      end
    else ret tt
  else ret tt.

(** The value of [probability_three_pi_to_one] for three incoming
    particles. *)
Definition three_pi_probability (type_out : ParticleType.t) (a : Action.t)
           (in_0 in_1 in_2 : ParticleData.t) (dt gcell_vol : R) : R :=
  dt / (gcell_vol * gcell_vol) * PI /
  (4 * FourVector.x0 (ParticleData.momentum in_0) *
   FourVector.x0 (ParticleData.momentum in_1) *
   FourVector.x0 (ParticleData.momentum in_2)) *
  get_partial_width type_out (sqrt_s a)
    [ParticleData.type in_0; ParticleData.type in_1; ParticleData.type in_2] /
  (1 / (8 * PI * PI * PI) * 1 / (16 * sqrt_s a * sqrt_s a) * 0.07514) *
  spectral_function type_out (sqrt_s a) * hbarc ^ 5 *
  IZR (spin_degeneracy type_out).

(** The state after one reaction is added. *)
Definition with_reaction (p : CollisionBranch.t) (s : state t) : state t :=
  let m := this s in
  let added := add_process p (reaction_channels_ m) (total_probability_ m) in
  mkState (mk (action m) (fst added) (snd added) (partial_probability_ m))
          (particles s) (random s) (events s).

End Offers.

(** The exception of [generate_final_state] for a process type that it
    does not know. *)
Definition invalid_process_type `{Collaborators} (pt : ProcessType) : exception :=
  InvalidScatterActionMulti
    ("ScatterActionMulti::generate_final_state: Invalid process type " ++
     to_string_int (ProcessType_to_int pt) ++ " was requested.")%string.

Module Unsupported.
Import World.

(** The three pions with an elastic channel offered to them. *)
Definition elastic_channel : CollisionBranch.t :=
  CollisionBranch.mk [pi_plus; pi_minus; pi_zero] 1 Elastic.

Definition s0 : state ScatterActionMulti.t :=
  start (ScatterActionMulti.mk (action ThreePions.pions [] None_)
                               [elastic_channel] 1 0)
        ThreePions.pions.

End Unsupported.

(** ** propagation.cc *)
Module Propagation.

(** What [propagate_particles] reads and writes of the [ParticleData] of
    this file. *)
Record ParticleData : Type := mk {
  id : Z;
  process_type : Z;
  velocity_x : R;
  velocity_y : R;
  velocity_z : R;
  position : FourVector.t
}.

Definition set_position (pos : FourVector.t) (p : ParticleData) : ParticleData :=
  mk (id p) (process_type p) (velocity_x p) (velocity_y p) (velocity_z p) pos.

Section Propagate.
(** [Box] and [boundary_condition] are defined elsewhere; [eps] is
    [parameters.eps()]. *)
Variable Box : Type.
Variable boundary_condition : FourVector.t -> Box -> FourVector.t.
Variable eps : R.
Variable box : Box.

(** The body of the loop, on one particle.  The debug prints are left
    out. *)
Definition propagate_one (p : ParticleData) : ParticleData :=
  if Z.ltb 0 (process_type p) then p
  else
    let distance :=
      FourVector.mk eps (velocity_x p * eps) (velocity_y p * eps)
                    (velocity_z p * eps) in
    let position := FourVector.add (position p) distance in
    set_position (boundary_condition position box) p.

Definition propagate_particles (particles : list ParticleData)
  : list ParticleData :=
  map propagate_one particles.

End Propagate.
End Propagation.

(* ================================================================== *)
(** * Properties *)

Lemma Rltb_true (x y : R) : Rltb x y = true <-> x < y.
Proof. unfold Rltb; destruct (Rlt_dec x y); split; intros; try easy. Qed.

Lemma Rltb_false (x y : R) : Rltb x y = false <-> y <= x.
Proof.
  unfold Rltb; destruct (Rlt_dec x y); split; intros; try easy; lra.
Qed.

Lemma Rleb_true (x y : R) : Rleb x y = true <-> x <= y.
Proof. unfold Rleb; destruct (Rle_dec x y); split; intros; try easy. Qed.

Lemma Rleb_false (x y : R) : Rleb x y = false <-> y < x.
Proof.
  unfold Rleb; destruct (Rle_dec x y); split; intros; try easy; lra.
Qed.

Section AnglesFacts.
Import Angles.

Lemma sintheta_sqr (a : t) :
  costheta_in_range a -> sintheta a * sintheta a = 1 - costheta_ a * costheta_ a.
Proof.
  intros [Hlo Hhi]. unfold sintheta. apply sqrt_sqrt. nra.
Qed.

Lemma direction_is_unit (a : t) :
  costheta_in_range a -> x a * x a + y a * y a + z a * z a = 1.
Proof.
  intros Hr. unfold x, y, z.
  pose proof (sintheta_sqr a Hr) as Hs.
  pose proof (sin2_cos2 (phi_ a)) as Hp. unfold Rsqr in Hp.
  replace (sintheta a * cos (phi_ a) * (sintheta a * cos (phi_ a)) +
           sintheta a * sin (phi_ a) * (sintheta a * sin (phi_ a)))
    with (sintheta a * sintheta a *
          (sin (phi_ a) * sin (phi_ a) + cos (phi_ a) * cos (phi_ a)))
    by ring.
  rewrite Hp, Hs. ring.
Qed.



(** An exception of [set_costheta] leaves the refused cosine in the
    object. *)
Lemma set_costheta_throw_keeps_value (c : R) (a a' : t) (f : failure) :
  set_costheta c a = (Fail f, a') -> costheta_ a' = c /\ ~ costheta_in_range a'.
Proof.
  unfold set_costheta. cbn [costheta_].
  destruct (Rltb c (-1)) eqn:E1; cbn.
  - intros H; inversion H; subst; clear H. cbn. split; [easy |].
    apply Rltb_true in E1. unfold costheta_in_range; cbn. lra.
  - destruct (Rltb 1 c) eqn:E2; [| discriminate].
    intros H; inversion H; subst; clear H. cbn. split; [easy |].
    apply Rltb_true in E2. unfold costheta_in_range; cbn. lra.
Qed.

Lemma distribute_isotropically_in_range (a : t) (g : RNG) :
  uniform01 g -> costheta_in_range (fst (distribute_isotropically a g)).
Proof.
  intros Hu. unfold distribute_isotropically, next, costheta_in_range; cbn.
  specialize (Hu 1%nat). lra.
Qed.




End AnglesFacts.

Section ActionFacts.
Context `{Collaborators}.
Import Action.
Local Open Scope string_scope.

(** *** check_conservation *)

Lemma is_string_process_spec (pt : ProcessType) :
  is_string_process pt = true <-> pt = StringSoft \/ pt = StringHard.
Proof.
  destruct pt; cbn; split; intros; try discriminate; auto;
    destruct H0; discriminate.
Qed.

Lemma check_conservation_string (s : state t) (id_process : N) :
  snapshots_differ (this s) = true ->
  is_string_process (process_type_ (this s)) = true ->
  fst (check_conservation id_process s) = Ok tt.
Proof.
  unfold snapshots_differ, is_string_process, check_conservation.
  intros Hd Hs. run. rewrite Hd. run. rewrite Hs. reflexivity.
Qed.

Lemma check_conservation_photon (s : state t) :
  snapshots_differ (this s) = true ->
  is_string_process (process_type_ (this s)) = false ->
  fst (check_conservation ID_PROCESS_PHOTON s) =
  Fail (Thrown (runtime_error "Conservation laws violated in photon process")).
Proof.
  unfold snapshots_differ, is_string_process, check_conservation.
  intros Hd Hs. run. rewrite Hd. run. rewrite Hs, N.eqb_refl. reflexivity.
Qed.

Lemma check_conservation_other (s : state t) (id_process : N) :
  snapshots_differ (this s) = true ->
  is_string_process (process_type_ (this s)) = false ->
  id_process <> ID_PROCESS_PHOTON ->
  fst (check_conservation id_process s) =
  Fail (Thrown (runtime_error ("Conservation laws violated in process " ++
                               to_string id_process))).
Proof.
  unfold snapshots_differ, is_string_process, check_conservation.
  intros Hd Hs Hid. run. rewrite Hd. run. rewrite Hs.
  apply N.eqb_neq in Hid. rewrite Hid. reflexivity.
Qed.

Lemma check_conservation_conserved (s : state t) (id_process : N) :
  snapshots_differ (this s) = false ->
  fst (check_conservation id_process s) = Ok tt.
Proof.
  unfold snapshots_differ, check_conservation.
  intros Hd. run. rewrite Hd. reflexivity.
Qed.

(** C1. When the snapshots of the incoming and of the outgoing particles
    differ, [check_conservation] fails exactly when the process type is
    neither the soft nor the hard string process (for these two it logs
    and returns); and when it fails, the photon process id gives the
    exception of the photon process, every other process id gives the
    exception that names its id, and the exception of the photon process
    is none of those that name an id. *)
Theorem check_conservation_violation (s : state t) (id_process : N) :
  snapshots_differ (this s) = true ->
  ((exists f, fst (check_conservation id_process s) = Fail f) <->
   (process_type_ (this s) <> StringSoft /\
    process_type_ (this s) <> StringHard)) /\
  (process_type_ (this s) = StringSoft \/ process_type_ (this s) = StringHard ->
   fst (check_conservation id_process s) = Ok tt /\
   exists msg, In (Log Error msg) (events (snd (check_conservation id_process s)))) /\
  (process_type_ (this s) <> StringSoft ->
   process_type_ (this s) <> StringHard ->
   fst (check_conservation ID_PROCESS_PHOTON s) = Fail (Thrown photon_violation) /\
   (id_process <> ID_PROCESS_PHOTON ->
    fst (check_conservation id_process s) =
    Fail (Thrown (process_violation id_process))) /\
   (forall n, photon_violation <> process_violation n)).
Proof.
  intros Hd. split; [| split].
  - split.
    + intros [f Hf]. destruct (is_string_process (process_type_ (this s))) eqn:E.
      * rewrite (check_conservation_string _ _ Hd E) in Hf. discriminate.
      * split; intro Hpt;
          assert (is_string_process (process_type_ (this s)) = true)
            by (apply is_string_process_spec; auto); congruence.
    + intros [H1 H2].
      assert (E : is_string_process (process_type_ (this s)) = false).
      { destruct (is_string_process _) eqn:E; [| reflexivity].
        apply is_string_process_spec in E. tauto. }
      destruct (N.eq_dec id_process ID_PROCESS_PHOTON) as [-> | Hid].
      * eexists. apply (check_conservation_photon _ Hd E).
      * eexists. apply (check_conservation_other _ _ Hd E Hid).
  - intros Hpt. apply is_string_process_spec in Hpt. split.
    + apply (check_conservation_string _ _ Hd Hpt).
    + unfold snapshots_differ, is_string_process in *.
      unfold check_conservation. run. rewrite Hd. run. rewrite Hpt. cbn.
      eexists. apply in_or_app. right. left. reflexivity.
  - intros H1 H2.
    assert (E : is_string_process (process_type_ (this s)) = false).
    { destruct (is_string_process _) eqn:E; [| reflexivity].
      apply is_string_process_spec in E. tauto. }
    split; [apply (check_conservation_photon _ Hd E) |].
    split; [intros Hid; apply (check_conservation_other _ _ Hd E Hid) |].
    intros n Heq. unfold photon_violation, process_violation in Heq.
    cbn in Heq. inversion Heq.
Qed.

End ActionFacts.

(** *** is_pauli_blocked *)

Lemma first_blocked_Some (dens : list R) (g : RNG) (k : nat) :
  first_blocked dens g = Some k <->
  (exists f, nth_error dens k = Some f /\ g k < f) /\
  (forall j f', (j < k)%nat -> nth_error dens j = Some f' -> f' <= g j).
Proof.
  revert g k. induction dens as [| f rest IH]; intros g k; cbn.
  - split; [discriminate |]. intros [[f [Hf _]] _]. destruct k; discriminate.
  - destruct (Rltb (g 0%nat) f) eqn:E.
    + apply Rltb_true in E. split.
      * intros Hk; inversion Hk; subst; clear Hk. split.
        -- exists f. split; [reflexivity | exact E].
        -- intros j f' Hj. inversion Hj.
      * intros [_ Hfirst]. destruct k as [| k]; [reflexivity |].
        specialize (Hfirst 0%nat f (Nat.lt_0_succ k) eq_refl). lra.
    + apply Rltb_false in E.
      destruct (first_blocked rest (shift 1 g)) as [k' |] eqn:Er; cbn.
      * apply IH in Er. destruct Er as [[f0 [Hf0 Hg]] Hfirst]. split.
        -- intros Hk; inversion Hk; subst; clear Hk. split.
           ++ exists f0. split; [exact Hf0 | exact Hg].
           ++ intros [| j] f' Hj Hn; cbn in Hn.
              ** inversion Hn; subst. exact E.
              ** apply (Hfirst j f'); [apply Nat.succ_lt_mono; exact Hj | exact Hn].
        -- intros [[f1 [Hf1 Hg1]] Hfirst1]. destruct k as [| k]; cbn in Hf1.
           ++ inversion Hf1; subst. lra.
           ++ f_equal. destruct (Nat.lt_trichotomy k k') as [Hlt | [Heq | Hgt]].
              ** specialize (Hfirst k f1 Hlt Hf1). unfold shift in Hfirst. cbn in Hfirst. lra.
              ** congruence.
              ** assert (Hs : (S k' < S k)%nat) by (apply -> Nat.succ_lt_mono; exact Hgt).
                 specialize (Hfirst1 (S k') f0 Hs Hf0).
                 unfold shift in Hg. cbn in Hg. lra.
      * split; [discriminate |].
        intros [[f1 [Hf1 Hg1]] Hfirst1]. destruct k as [| k]; cbn in Hf1.
        -- inversion Hf1; subst. lra.
        -- assert (Hk : first_blocked rest (shift 1 g) = Some k).
           { apply IH. split.
             - exists f1. split; [exact Hf1 | exact Hg1].
             - intros j f' Hj Hn. apply (Hfirst1 (S j) f');
                 [apply -> Nat.succ_lt_mono; exact Hj | exact Hn]. }
           congruence.
Qed.

Lemma first_blocked_None (dens : list R) (g : RNG) :
  first_blocked dens g = None <->
  (forall k f, nth_error dens k = Some f -> f <= g k).
Proof.
  revert g. induction dens as [| f rest IH]; intros g; cbn.
  - split; [| reflexivity]. intros _ [| k] f Hn; discriminate.
  - destruct (Rltb (g 0%nat) f) eqn:E.
    + apply Rltb_true in E. split; [discriminate |].
      intros Hall. specialize (Hall 0%nat f eq_refl). lra.
    + apply Rltb_false in E.
      destruct (first_blocked rest (shift 1 g)) as [k' |] eqn:Er; cbn.
      * split; [discriminate |]. intros Hall.
        assert (Hn : first_blocked rest (shift 1 g) = None).
        { apply IH. intros k f0 Hk. apply (Hall (S k) f0 Hk). }
        congruence.
      * split; [| reflexivity]. intros _ [| k] f0 Hk; cbn in Hk.
        -- inversion Hk; subst. exact E.
        -- apply (proj1 (IH _) Er k f0 Hk).
Qed.

Section PauliFacts.
Context `{Collaborators}.
Import Action.
Local Open Scope string_scope.

(** The loop draws once per baryon, stops at the first baryon whose
    density exceeds its draw, and touches nothing but the random source
    and the log. *)
Lemma is_pauli_blocked_loop_run (p_bl : PauliBlocker) (a : t)
      (out : ParticleList) (s : state t) :
  is_pauli_blocked_loop p_bl a out s =
  match first_blocked (densities_of p_bl a (particles s) out) (random s) with
  | Some k =>
      (Ok true,
       mkState (this s) (particles s) (shift (S k) (random s))
               (events s ++ [Log Debug "Action is pauli-blocked"]))
  | None =>
      (Ok false,
       mkState (this s) (particles s)
               (shift (List.length (densities_of p_bl a (particles s) out))
                      (random s))
               (events s))
  end.
Proof.
  revert s. induction out as [| p rest IH]; intros s.
  - destruct s; reflexivity.
  - cbn [is_pauli_blocked_loop]. unfold densities_of. cbn [filter].
    destruct (ParticleData.is_baryon p) eqn:Eb.
    + cbn [map first_blocked]. run. fold (density_at p_bl a (particles s) p).
      destruct (Rltb (random s 0%nat) (density_at p_bl a (particles s) p)) eqn:E.
      * reflexivity.
      * rewrite IH. cbn [particles random this events].
        fold (densities_of p_bl a (particles s) rest).
        change (fun n : nat => random s (S n)) with (shift 1 (random s)).
        destruct (first_blocked _ _); reflexivity.
    + rewrite IH. reflexivity.
Qed.

Lemma is_pauli_blocked_run (p_bl : PauliBlocker) (s : state t) :
  process_type_ (this s) <> Wall ->
  is_pauli_blocked p_bl s =
  is_pauli_blocked_loop p_bl (this s) (outgoing_particles_ (this s)) s.
Proof.
  intros Hw. unfold is_pauli_blocked. run.
  destruct (process_type_ (this s)); try reflexivity. congruence.
Qed.

(** C2. A wall-crossing action is never blocked, whatever the densities
    and the outgoing particles are.  For any other action and draws in
    [0, 1): densities 0 at every outgoing baryon never block, a density
    1 at some outgoing baryon always blocks.  In general the action is
    blocked exactly when the density at some outgoing baryon exceeds the
    draw made for it, and the loop stops at the first such baryon: it
    has then drawn once for each baryon up to this one and no more. *)
Theorem is_pauli_blocked_spec (p_bl : PauliBlocker) (s : state t) :
  (process_type_ (this s) = Wall ->
   is_pauli_blocked p_bl s = (Ok false, s)) /\
  (process_type_ (this s) <> Wall -> uniform01 (random s) ->
   (Forall (fun f => f = 0) (densities p_bl s) ->
    fst (is_pauli_blocked p_bl s) = Ok false) /\
   (Exists (fun f => f = 1) (densities p_bl s) ->
    fst (is_pauli_blocked p_bl s) = Ok true)) /\
  (process_type_ (this s) <> Wall ->
   (exists b, fst (is_pauli_blocked p_bl s) = Ok b /\
      (b = true <->
       exists k f, nth_error (densities p_bl s) k = Some f /\ random s k < f)) /\
   (forall k f,
      nth_error (densities p_bl s) k = Some f -> random s k < f ->
      (forall j f', (j < k)%nat ->
                    nth_error (densities p_bl s) j = Some f' -> f' <= random s j) ->
      forall n, random (snd (is_pauli_blocked p_bl s)) n = random s (S k + n)%nat)).
Proof.
  split; [| split].
  - intros Hw. unfold is_pauli_blocked. run. rewrite Hw. reflexivity.
  - intros Hw Hu. rewrite (is_pauli_blocked_run _ _ Hw), is_pauli_blocked_loop_run.
    fold (densities p_bl s). split.
    + intros Hz.
      assert (E : first_blocked (densities p_bl s) (random s) = None).
      { apply first_blocked_None. intros k f Hk.
        rewrite Forall_forall in Hz.
        rewrite (Hz f (nth_error_In _ _ Hk)). apply (Hu k). }
      rewrite E. reflexivity.
    + intros Hone. apply Exists_exists in Hone. destruct Hone as [f [Hin Hf]].
      destruct (first_blocked (densities p_bl s) (random s)) eqn:E;
        [reflexivity |].
      apply In_nth_error in Hin. destruct Hin as [k Hk].
      pose proof (proj1 (first_blocked_None _ _) E k f Hk) as Hle.
      pose proof (Hu k). lra.
  - intros Hw. rewrite (is_pauli_blocked_run _ _ Hw), is_pauli_blocked_loop_run.
    fold (densities p_bl s). split.
    + destruct (first_blocked (densities p_bl s) (random s)) as [k |] eqn:E.
      * exists true. split; [reflexivity |]. split; [| reflexivity].
        intros _. apply first_blocked_Some in E.
        destruct E as [[f [Hf Hg]] _]. exists k, f. auto.
      * exists false. split; [reflexivity |]. split; [discriminate |].
        intros [k [f [Hk Hg]]].
        pose proof (proj1 (first_blocked_None _ _) E k f Hk). lra.
    + intros k f Hk Hg Hfirst n.
      assert (E : first_blocked (densities p_bl s) (random s) = Some k).
      { apply first_blocked_Some. split; [exists f; auto | exact Hfirst]. }
      rewrite E. reflexivity.
Qed.

End PauliFacts.

(** *** sample_masses *)

Section SampleMassesFacts.
Context `{Collaborators}.
Variable sqrt_s : Action.t -> R.
Import Action.

Lemma sample_masses_below_two_incoming (s : state t)
      (p_a p_b in_0 in_1 : ParticleData.t) (out_rest in_rest : ParticleList) :
  outgoing_particles_ (this s) = p_a :: p_b :: out_rest ->
  incoming_particles_ (this s) = in_0 :: in_1 :: in_rest ->
  kinetic_energy_cms sqrt_s (this s) < threshold p_a p_b ->
  sample_masses sqrt_s s =
  (Fail (Thrown (not_enough_energy sqrt_s (this s) in_0 in_1 p_a p_b)), s).
Proof.
  intros Hout Hin Hlt. unfold sample_masses. run. rewrite Hout. cbn.
  apply Rltb_true in Hlt. unfold threshold in Hlt. rewrite Hlt.
  rewrite Hin. cbn. reflexivity.
Qed.

Lemma sample_masses_below_one_incoming (s : state t)
      (p_a p_b in_0 : ParticleData.t) (out_rest : ParticleList) :
  outgoing_particles_ (this s) = p_a :: p_b :: out_rest ->
  incoming_particles_ (this s) = [in_0] ->
  kinetic_energy_cms sqrt_s (this s) < threshold p_a p_b ->
  sample_masses sqrt_s s = (Fail OutOfBounds, s).
Proof.
  intros Hout Hin Hlt. unfold sample_masses. run. rewrite Hout. cbn.
  apply Rltb_true in Hlt. unfold threshold in Hlt. rewrite Hlt.
  rewrite Hin. cbn. reflexivity.
Qed.

(** At or above the threshold the incoming particles are not read and
    the call returns. *)
Lemma sample_masses_above (s : state t)
      (p_a p_b : ParticleData.t) (out_rest : ParticleList) :
  outgoing_particles_ (this s) = p_a :: p_b :: out_rest ->
  threshold p_a p_b <= kinetic_energy_cms sqrt_s (this s) ->
  exists masses, fst (sample_masses sqrt_s s) = Ok masses.
Proof.
  intros Hout Hge. unfold sample_masses. run. rewrite Hout. cbn.
  apply Rltb_false in Hge. unfold threshold in Hge. rewrite Hge.
  destruct (ParticleType.is_stable (ParticleData.type p_a)),
           (ParticleType.is_stable (ParticleData.type p_b)); cbn.
  - eexists; reflexivity.
  - destruct (sample_resonance_mass _ _ _ _); eexists; reflexivity.
  - destruct (sample_resonance_mass _ _ _ _); eexists; reflexivity.
  - destruct (sample_resonance_masses _ _ _ _); eexists; reflexivity.
Qed.

Lemma sample_masses_stable_pair (s : state t)
      (p_a p_b : ParticleData.t) (out_rest : ParticleList) :
  outgoing_particles_ (this s) = p_a :: p_b :: out_rest ->
  threshold p_a p_b <= kinetic_energy_cms sqrt_s (this s) ->
  ParticleType.is_stable (ParticleData.type p_a) = true ->
  ParticleType.is_stable (ParticleData.type p_b) = true ->
  sample_masses sqrt_s s =
  (Ok (ParticleType.mass (ParticleData.type p_a),
       ParticleType.mass (ParticleData.type p_b)), s).
Proof.
  intros Hout Hge Ha Hb. unfold sample_masses. run. rewrite Hout. cbn.
  apply Rltb_false in Hge. unfold threshold in Hge. rewrite Hge, Ha, Hb.
  cbn. destruct s; reflexivity.
Qed.

(** With two incoming particles or more and a pair of outgoing
    particles, [sample_masses] fails for too little energy exactly below
    the threshold, and a stable pair keeps its pole masses. *)
Lemma sample_masses_two_incoming (s : state t)
      (p_a p_b : ParticleData.t) :
  outgoing_particles_ (this s) = [p_a; p_b] ->
  (2 <= List.length (incoming_particles_ (this s)))%nat ->
  (is_insufficient_energy (fst (sample_masses sqrt_s s)) <->
   kinetic_energy_cms sqrt_s (this s) < threshold p_a p_b) /\
  ((forall f, fst (sample_masses sqrt_s s) <> Fail f) ->
   ParticleType.is_stable (ParticleData.type p_a) = true ->
   ParticleType.is_stable (ParticleData.type p_b) = true ->
   fst (sample_masses sqrt_s s) =
   Ok (ParticleType.mass (ParticleData.type p_a),
       ParticleType.mass (ParticleData.type p_b))).
Proof.
  intros Hout Hin.
  destruct (incoming_particles_ (this s)) as [| in_0 [| in_1 in_rest]] eqn:Ein;
    cbn in Hin; try lia.
  destruct (Rlt_dec (kinetic_energy_cms sqrt_s (this s)) (threshold p_a p_b))
    as [Hlt | Hge].
  - rewrite (sample_masses_below_two_incoming s _ _ _ _ _ _ Hout Ein Hlt).
    cbn. split.
    + split; [intros _; exact Hlt | intros _; eexists; reflexivity].
    + intros Hf _ _. exfalso. eapply Hf. reflexivity.
  - apply Rnot_lt_le in Hge. split.
    + split; [| intros Hlt; lra].
      intros [what Hw].
      destruct (ParticleType.is_stable (ParticleData.type p_a)) eqn:Ea,
               (ParticleType.is_stable (ParticleData.type p_b)) eqn:Eb;
        destruct (sample_masses_above s _ _ _ Hout Hge) as [m Hm];
        rewrite Hm in Hw; discriminate.
    + intros _ Ha Hb.
      rewrite (sample_masses_stable_pair s _ _ _ Hout Hge Ha Hb). reflexivity.
Qed.

(** C9. Below the threshold [sample_masses] reads the first and the
    second incoming particle for the name of the reaction in its
    message.  With two incoming particles or more (and a pair of
    outgoing particles) no access leaves a vector; with a single incoming
    particle and an energy below the threshold the access to the second
    incoming particle is out of bounds. *)
Theorem sample_masses_incoming_access (s : state t)
        (p_a p_b : ParticleData.t) (out_rest : ParticleList) :
  outgoing_particles_ (this s) = p_a :: p_b :: out_rest ->
  (forall in_0 in_1 in_rest,
     incoming_particles_ (this s) = in_0 :: in_1 :: in_rest ->
     kinetic_energy_cms sqrt_s (this s) < threshold p_a p_b ->
     fst (sample_masses sqrt_s s) =
     Fail (Thrown (not_enough_energy sqrt_s (this s) in_0 in_1 p_a p_b))) /\
  ((2 <= List.length (incoming_particles_ (this s)))%nat ->
   fst (sample_masses sqrt_s s) <> Fail OutOfBounds) /\
  (forall in_0,
     incoming_particles_ (this s) = [in_0] ->
     kinetic_energy_cms sqrt_s (this s) < threshold p_a p_b ->
     fst (sample_masses sqrt_s s) = Fail OutOfBounds).
Proof.
  intros Hout. split; [| split].
  - intros in_0 in_1 in_rest Hin Hlt.
    rewrite (sample_masses_below_two_incoming s _ _ _ _ _ _ Hout Hin Hlt).
    reflexivity.
  - intros Hlen.
    destruct (incoming_particles_ (this s)) as [| in_0 [| in_1 in_rest]] eqn:Ein;
      cbn in Hlen; try lia.
    destruct (Rlt_dec (kinetic_energy_cms sqrt_s (this s)) (threshold p_a p_b))
      as [Hlt | Hge].
    + rewrite (sample_masses_below_two_incoming s _ _ _ _ _ _ Hout Ein Hlt).
      discriminate.
    + apply Rnot_lt_le in Hge.
      destruct (sample_masses_above s _ _ _ Hout Hge) as [m Hm].
      rewrite Hm. discriminate.
  - intros in_0 Hin Hlt.
    rewrite (sample_masses_below_one_incoming s _ _ _ _ Hout Hin Hlt).
    reflexivity.
Qed.

End SampleMassesFacts.

(** C5, at an action with a single incoming particle.  The energy of the
    lone omega is below the threshold of the proton and neutron pair, and
    [sample_masses] does not fail for too little energy: it reads a second
    incoming particle that is not there. *)
Theorem sample_masses_lone_incoming :
  kinetic_energy_cms World.sqrt_s (this Decay.s0) <
    threshold (World.at_rest (-1) World.proton) (World.at_rest (-1) World.neutron) /\
  fst (sample_masses World.sqrt_s Decay.s0) = Fail OutOfBounds /\
  ~ is_insufficient_energy (fst (sample_masses World.sqrt_s Decay.s0)).
Proof.
  assert (Hlt : kinetic_energy_cms World.sqrt_s (this Decay.s0) <
                threshold (World.at_rest (-1) World.proton)
                          (World.at_rest (-1) World.neutron)).
  { unfold kinetic_energy_cms, kinetic_energy_cms_of, threshold. cbn. lra. }
  assert (Hrun : sample_masses World.sqrt_s Decay.s0 = (Fail OutOfBounds, Decay.s0)).
  { apply (sample_masses_below_one_incoming World.sqrt_s Decay.s0
             _ _ _ [] eq_refl eq_refl Hlt). }
  split; [exact Hlt |]. rewrite Hrun. cbn. split; [reflexivity |].
  intros [what Hw]. discriminate.
Qed.

(** *** perform *)

Section PerformFacts.
Context `{Collaborators}.
Import Action.

Lemma perform_zero (s : state t) : perform 0 s = (Fail AssertionFailed, s).
Proof. reflexivity. Qed.

Lemma perform_run (s : state t) (id_process : N) :
  id_process <> 0%N ->
  perform id_process s =
  match UB_lat_ (this s), UI3_lat_ (this s) with
  | None, None => check_conservation id_process (committed id_process s)
  | _, _ => (Ok tt, committed id_process s)
  end.
Proof.
  intros Hid. apply N.eqb_neq in Hid.
  unfold perform, committed, stamped, do_replace_of. rewrite Hid.
  unfold bind, ret, get, emit, modify, set_particles, set_this, assert.
  cbn -[check_conservation].
  destruct (Particles_update _ _ _ _) as [ps new_state].
  cbn -[check_conservation]. rewrite <- app_assoc. cbn -[check_conservation].
  destruct (UB_lat_ (this s)), (UI3_lat_ (this s)); reflexivity.
Qed.

(** [check_conservation] touches the log only, and starts it with the
    record of its call. *)
Lemma check_conservation_frame (s : state t) (id_process : N) :
  let s' := snd (check_conservation id_process s) in
  this s' = this s /\ particles s' = particles s /\ random s' = random s /\
  exists more,
    events s' = (events s ++ Call_check_conservation id_process :: more)%list /\
    forall e, In e more -> exists lvl msg, e = Log lvl msg.
Proof.
  unfold check_conservation. run.
  destruct (QuantumNumbers_neq _ _); cbn.
  - destruct (_ || _); cbn;
      [| destruct (N.eqb _ _); cbn];
      repeat split; rewrite <- app_assoc;
      (eexists; split; [reflexivity |]);
      intros e [<- | []]; eauto.
  - repeat split. exists []. split; [reflexivity |]. intros e [].
Qed.

Lemma new_events_app {O : Type} (s s' : state O) (l : list event) :
  events s' = events s ++ l -> new_events s s' = l.
Proof.
  intros E. unfold new_events. rewrite E.
  rewrite skipn_app, skipn_all, Nat.sub_diag. reflexivity.
Qed.

Lemma do_replace_of_false (pt : ProcessType) :
  do_replace_of pt = false <-> pt = Elastic \/ pt = Wall.
Proof.
  destruct pt; cbn; split; intros; try discriminate; auto;
    destruct H0; discriminate.
Qed.

(** C8. A call of [perform] with the process id 0 fails at once, on any
    collection and any action, and leaves the collection (and the rest of
    the state) as it was: nothing was updated, checked or logged. *)
Theorem perform_process_id_zero (s : state t) :
  fst (perform 0 s) = Fail AssertionFailed /\
  snd (perform 0 s) = s /\
  particles (snd (perform 0 s)) = particles s /\
  new_events s (snd (perform 0 s)) = [].
Proof.
  rewrite perform_zero. cbn. repeat split.
  apply new_events_app. rewrite app_nil_r. reflexivity.
Qed.

(** C6. A call of [perform] (with a process id other than 0) runs
    [check_conservation] exactly when no potential lattice is attached,
    that is when both the baryon and the isospin lattice pointers are
    null; with one of them attached the call returns after the update
    without the check. *)
Theorem perform_checks_conservation (s : state t) (id_process : N) :
  id_process <> 0%N ->
  (In (Call_check_conservation id_process)
      (new_events s (snd (perform id_process s))) <->
   no_lattice (this s)) /\
  (no_lattice (this s) ->
   perform id_process s =
   check_conservation id_process (committed id_process s)) /\
  (~ no_lattice (this s) ->
   perform id_process s = (Ok tt, committed id_process s)).
Proof.
  intros Hid. rewrite (perform_run _ _ Hid). unfold no_lattice.
  destruct (UB_lat_ (this s)) as [ub |] eqn:EB;
    destruct (UI3_lat_ (this s)) as [ui |] eqn:EI.
  1-3: split; [| split; [intros [? ?]; discriminate | reflexivity]];
    (split; [| intros [? ?]; discriminate]);
    cbn [snd]; unfold committed;
    erewrite new_events_app by reflexivity;
    intros [Hin | [Hin | []]]; discriminate.
  split; [| split; [reflexivity | intros Hn; exfalso; apply Hn; auto]].
  split; [auto |]. intros _.
  destruct (check_conservation_frame (committed id_process s) id_process)
    as (_ & _ & _ & more & Hev & _).
  unfold committed in Hev at 2. cbn [events] in Hev.
  rewrite <- app_assoc in Hev.
  rewrite (new_events_app _ _ _ Hev).
  apply in_or_app. right. left. reflexivity.
Qed.

(** The history of an outgoing particle after the stamp of a process that
    is not a wall crossing. *)
Lemma stamp_history (a : t) (id_process : N) (p : ParticleData.t) :
  process_type_ a <> Wall ->
  ParticleData.history (stamp a id_process p) = performed_history a id_process p /\
  ParticleData.id (stamp a id_process p) = ParticleData.id p /\
  ParticleData.momentum (stamp a id_process p) = ParticleData.momentum p /\
  ParticleData.position (stamp a id_process p) = ParticleData.position p.
Proof.
  intros Hw. unfold stamp, performed_history.
  destruct (process_type_ a) eqn:E; try (repeat split; reflexivity). congruence.
Qed.

(** C7. A call of [perform] (with a process id other than 0) makes one
    update of the collection, from the incoming to the outgoing
    particles; the update is in place (no removal and insertion) exactly
    when the process type is the elastic or the wall-crossing one, and
    removes and inserts for every other type.  Every outgoing particle
    gets the history of the process (collision count plus one, process
    id, type, time and the incoming particles) exactly when the type is
    not the wall-crossing one; for a wall crossing the outgoing particles
    go to the collection as they are. *)
Theorem perform_commits (s : state t) (id_process : N) :
  id_process <> 0%N ->
  let a := this s in
  let s' := snd (perform id_process s) in
  (exists more,
     new_events s s' =
     Call_update (incoming_particles_ a) (stamped a id_process)
                 (do_replace_of (process_type_ a)) :: more /\
     forall old new flag, ~ In (Call_update old new flag) more) /\
  particles s' =
    fst (Particles_update (particles s) (incoming_particles_ a)
                          (stamped a id_process)
                          (do_replace_of (process_type_ a))) /\
  (do_replace_of (process_type_ a) = false <->
   process_type_ a = Elastic \/ process_type_ a = Wall) /\
  (process_type_ a <> Wall ->
   stamped a id_process =
   map (fun p =>
          ParticleData.set_history
            (HistoryData.collisions_per_particle (ParticleData.get_history p) + 1)
            id_process (process_type_ a) (time_of_execution_ a)
            (incoming_particles_ a) p)
       (outgoing_particles_ a)) /\
  (process_type_ a = Wall -> stamped a id_process = outgoing_particles_ a).
Proof.
  intros Hid a s'. subst a s'. rewrite (perform_run _ _ Hid).
  assert (Hc : exists more,
             new_events s (committed id_process s) =
             Call_update (incoming_particles_ (this s))
                         (stamped (this s) id_process)
                         (do_replace_of (process_type_ (this s))) :: more /\
             forall old new flag, ~ In (Call_update old new flag) more).
  { unfold committed. erewrite new_events_app by reflexivity.
    eexists. split; [reflexivity |].
    intros old new flag [Hin | []]. discriminate. }
  assert (Hk : exists more,
             new_events s (snd (check_conservation id_process (committed id_process s))) =
             Call_update (incoming_particles_ (this s))
                         (stamped (this s) id_process)
                         (do_replace_of (process_type_ (this s))) :: more /\
             forall old new flag, ~ In (Call_update old new flag) more).
  { destruct (check_conservation_frame (committed id_process s) id_process)
      as (_ & _ & _ & more & Hev & Hlog).
    unfold committed in Hev at 2. cbn [events] in Hev.
    rewrite <- app_assoc in Hev. rewrite (new_events_app _ _ _ Hev).
    eexists. split; [reflexivity |].
    intros old new flag [Hin | [Hin | Hin]]; try discriminate.
    destruct (Hlog _ Hin) as (lvl & msg & Hl). discriminate. }
  split; [| split; [| split; [| split]]].
  - destruct (UB_lat_ (this s)), (UI3_lat_ (this s)); cbn [snd]; assumption.
  - destruct (UB_lat_ (this s)), (UI3_lat_ (this s)); cbn [snd];
      try reflexivity.
    destruct (check_conservation_frame (committed id_process s) id_process)
      as (_ & Hp & _). rewrite Hp. reflexivity.
  - apply do_replace_of_false.
  - intros Hw. unfold stamped. apply map_ext. intros p. unfold stamp.
    destruct (process_type_ (this s)) eqn:E; try reflexivity. congruence.
  - intros Hw. unfold stamped, stamp. rewrite Hw. cbn. apply map_id.
Qed.

End PerformFacts.

(** *** sample_angles *)

Section TwoBodyKinematics.
Variables sqrts mass_a mass_b : R.
Hypothesis sqrts_pos : 0 < sqrts.
Hypothesis mass_a_nonneg : 0 <= mass_a.
Hypothesis mass_b_nonneg : 0 <= mass_b.
Hypothesis above_threshold : mass_a + mass_b <= sqrts.

Lemma pCM_sqr :
  pCM sqrts mass_a mass_b * pCM sqrts mass_a mass_b =
  (sqrts * sqrts - (mass_a + mass_b) * (mass_a + mass_b)) *
  (sqrts * sqrts - (mass_a - mass_b) * (mass_a - mass_b)) /
  (4 * (sqrts * sqrts)).
Proof.
  unfold pCM. cbv zeta. apply sqrt_sqrt.
  apply Rmult_le_pos; [apply Rmult_le_pos; nra |].
  apply Rlt_le, Rinv_0_lt_compat. nra.
Qed.

(** The energy of the first particle of the pair. *)
Lemma energy_first :
  sqrt (mass_a * mass_a + pCM sqrts mass_a mass_b * pCM sqrts mass_a mass_b) =
  (sqrts * sqrts + mass_a * mass_a - mass_b * mass_b) / (2 * sqrts).
Proof.
  rewrite pCM_sqr.
  replace (mass_a * mass_a + _)
    with ((sqrts * sqrts + mass_a * mass_a - mass_b * mass_b) / (2 * sqrts) *
          ((sqrts * sqrts + mass_a * mass_a - mass_b * mass_b) / (2 * sqrts)))
    by (field; lra).
  apply sqrt_square.
  apply Rmult_le_pos; [nra |]. apply Rlt_le, Rinv_0_lt_compat. lra.
Qed.

(** The energy of the second particle of the pair. *)
Lemma energy_second :
  sqrt (mass_b * mass_b + pCM sqrts mass_a mass_b * pCM sqrts mass_a mass_b) =
  (sqrts * sqrts - mass_a * mass_a + mass_b * mass_b) / (2 * sqrts).
Proof.
  rewrite pCM_sqr.
  replace (mass_b * mass_b + _)
    with ((sqrts * sqrts - mass_a * mass_a + mass_b * mass_b) / (2 * sqrts) *
          ((sqrts * sqrts - mass_a * mass_a + mass_b * mass_b) / (2 * sqrts)))
    by (field; lra).
  apply sqrt_square.
  apply Rmult_le_pos; [nra |]. apply Rlt_le, Rinv_0_lt_compat. lra.
Qed.

Lemma energies_sum :
  sqrt (mass_a * mass_a + pCM sqrts mass_a mass_b * pCM sqrts mass_a mass_b) +
  sqrt (mass_b * mass_b + pCM sqrts mass_a mass_b * pCM sqrts mass_a mass_b) =
  sqrts.
Proof. rewrite energy_first, energy_second. field. lra. Qed.

End TwoBodyKinematics.

(** A three-vector of length one, scaled: the square of its length. *)
Lemma sqr_scale_unit (n : ThreeVector.t) (a : R) :
  ThreeVector.sqr n = 1 -> ThreeVector.sqr (ThreeVector.scale n a) = a * a.
Proof.
  unfold ThreeVector.sqr, ThreeVector.dot, ThreeVector.scale; cbn.
  intros Hn. nra.
Qed.

Lemma sqr_opp (n : ThreeVector.t) :
  ThreeVector.sqr (ThreeVector.opp n) = ThreeVector.sqr n.
Proof.
  unfold ThreeVector.sqr, ThreeVector.dot, ThreeVector.opp; cbn. ring.
Qed.

(** The mass of the four-momentum that [set_4momentum] makes. *)
Lemma abs_set_4momentum (m : R) (mom : ThreeVector.t) (p : ParticleData.t) :
  0 <= m ->
  FourVector.abs (ParticleData.momentum (ParticleData.set_4momentum m mom p)) = m.
Proof.
  intros Hm. unfold FourVector.abs, FourVector.sqr, ParticleData.set_4momentum.
  destruct mom as [m1 m2 m3].
  unfold FourVector.threevec, FourVector.make, ThreeVector.sqr, ThreeVector.dot.
  cbn.
  rewrite sqrt_sqrt by nra.
  replace (m * m + (m1 * m1 + m2 * m2 + m3 * m3) - (m1 * m1 + m2 * m2 + m3 * m3))
    with (m * m) by ring.
  apply sqrt_square. exact Hm.
Qed.

Section SampleAnglesFacts.
Context `{Collaborators}.
Variable sqrt_s : Action.t -> R.
Import Action.

Lemma drawn_direction_unit (g : RNG) :
  uniform01 g -> ThreeVector.sqr (drawn_direction g) = 1.
Proof.
  intros Hu. unfold drawn_direction, threevec, ThreeVector.sqr, ThreeVector.dot.
  cbn [ThreeVector.x1 ThreeVector.x2 ThreeVector.x3].
  apply direction_is_unit.
  apply distribute_isotropically_in_range. exact Hu.
Qed.

Lemma sample_angles_run (s : state t) (masses : R * R)
      (p_a p_b : ParticleData.t) (out_rest : ParticleList) :
  outgoing_particles_ (this s) = p_a :: p_b :: out_rest ->
  let pcm := pCM (kinetic_energy_cms sqrt_s (this s)) (fst masses) (snd masses) in
  let n := drawn_direction (random s) in
  fst (sample_angles sqrt_s masses s) = Ok tt /\
  outgoing_particles_ (this (snd (sample_angles sqrt_s masses s))) =
    ParticleData.set_4momentum (fst masses) (ThreeVector.scale n pcm) p_a ::
    ParticleData.set_4momentum (snd masses)
      (ThreeVector.scale (ThreeVector.opp n) pcm) p_b :: out_rest.
Proof.
  intros Hout pcm n. subst pcm n. unfold sample_angles, drawn_direction. run.
  rewrite Hout. cbn.
  destruct (negb _); cbn; split; reflexivity.
Qed.

Lemma sample_angles_draws (s : state t) (masses : R * R)
      (p_a p_b : ParticleData.t) (out_rest : ParticleList) :
  outgoing_particles_ (this s) = p_a :: p_b :: out_rest ->
  forall k, random (snd (sample_angles sqrt_s masses s)) k = random s (2 + k)%nat.
Proof.
  intros Hout k. unfold sample_angles. run. rewrite Hout. cbn.
  destruct (negb _); cbn; reflexivity.
Qed.

Lemma drawn_direction_of_draws (g : RNG) :
  drawn_direction g = direction_of_draws (g 0%nat) (g 1%nat).
Proof. reflexivity. Qed.

(** C4. For a pair of outgoing particles, sampled masses [m_a] and [m_b]
    and an energy [E] of the centre-of-mass frame with [m_a + m_b <= E],
    [sample_angles] makes two draws [u1] and [u2] and gives the first
    particle the four-momentum of mass [m_a] with three-momentum [pcm * n]
    and the second the one of mass [m_b] with three-momentum [- pcm * n],
    where [n] is the one direction of azimuth [2 pi u1] and polar cosine
    [-1 + 2 u2], of length one; the two three-momenta add up to zero and
    the two energies to [E], whatever the draws in [0, 1) are. *)
Theorem sample_angles_two_body (s : state t) (m_a m_b : R)
        (p_a p_b : ParticleData.t) :
  outgoing_particles_ (this s) = [p_a; p_b] ->
  uniform01 (random s) ->
  0 <= m_a -> 0 <= m_b ->
  0 < kinetic_energy_cms sqrt_s (this s) ->
  m_a + m_b <= kinetic_energy_cms sqrt_s (this s) ->
  let E := kinetic_energy_cms sqrt_s (this s) in
  let pcm := pCM E m_a m_b in
  let n := direction_of_draws (random s 0%nat) (random s 1%nat) in
  exists (p_a' p_b' : ParticleData.t),
    ThreeVector.sqr n = 1 /\
    fst (sample_angles sqrt_s (m_a, m_b) s) = Ok tt /\
    outgoing_particles_ (this (snd (sample_angles sqrt_s (m_a, m_b) s))) =
      [p_a'; p_b'] /\
    (forall k, random (snd (sample_angles sqrt_s (m_a, m_b) s)) k =
               random s (2 + k)%nat) /\
    FourVector.threevec (ParticleData.momentum p_a') = ThreeVector.scale n pcm /\
    FourVector.threevec (ParticleData.momentum p_b') =
      ThreeVector.scale (ThreeVector.opp n) pcm /\
    FourVector.abs (ParticleData.momentum p_a') = m_a /\
    FourVector.abs (ParticleData.momentum p_b') = m_b /\
    ThreeVector.add (FourVector.threevec (ParticleData.momentum p_a'))
                    (FourVector.threevec (ParticleData.momentum p_b')) =
      ThreeVector.zero /\
    FourVector.x0 (ParticleData.momentum p_a') +
    FourVector.x0 (ParticleData.momentum p_b') = E.
Proof.
  intros Hout Hu Ha Hb HE Hthr E pcm n.
  destruct (sample_angles_run s (m_a, m_b) p_a p_b [] Hout) as [Hok Hres].
  cbn [fst snd] in Hres. fold E in Hres. fold pcm in Hres.
  pose proof (drawn_direction_unit (random s) Hu) as Hn.
  rewrite drawn_direction_of_draws in Hn, Hres. fold n in Hn, Hres.
  do 2 eexists.
  split; [exact Hn |]. split; [exact Hok |]. split; [exact Hres |].
  split; [exact (sample_angles_draws s (m_a, m_b) p_a p_b [] Hout) |].
  split; [reflexivity |]. split; [reflexivity |].
  split; [apply abs_set_4momentum; exact Ha |].
  split; [apply abs_set_4momentum; exact Hb |].
  split.
  - cbn. unfold ThreeVector.add, ThreeVector.zero; cbn. f_equal; ring.
  - cbn. rewrite (sqr_scale_unit _ _ Hn).
    rewrite (sqr_scale_unit (ThreeVector.opp n) pcm)
      by (rewrite sqr_opp; exact Hn).
    apply energies_sum; assumption.
Qed.

End SampleAnglesFacts.

(** *** generate_final_state of ScatterActionMulti *)

Lemma timelike_future_add (u v : FourVector.t) :
  timelike_future u -> timelike_future v -> timelike_future (FourVector.add u v).
Proof.
  destruct u as [u0 u1 u2 u3], v as [v0 v1 v2 v3].
  unfold timelike_future, FourVector.add, FourVector.threevec,
    ThreeVector.sqr, ThreeVector.dot; cbn.
  intros [Hu0 Hu] [Hv0 Hv]. split; [lra |].
  (* Cauchy-Schwarz, then the product of the two mass-shell inequalities *)
  assert (Hcs : (u1 * v1 + u2 * v2 + u3 * v3) * (u1 * v1 + u2 * v2 + u3 * v3) <=
                (u1 * u1 + u2 * u2 + u3 * u3) * (v1 * v1 + v2 * v2 + v3 * v3)).
  { pose proof (Rle_0_sqr (u1 * v2 - u2 * v1)) as A12.
    pose proof (Rle_0_sqr (u1 * v3 - u3 * v1)) as A13.
    pose proof (Rle_0_sqr (u2 * v3 - u3 * v2)) as A23.
    unfold Rsqr in A12, A13, A23. nra. }
  assert (Hprod : (u1 * u1 + u2 * u2 + u3 * u3) * (v1 * v1 + v2 * v2 + v3 * v3) <
                  (u0 * u0) * (v0 * v0)).
  { assert (0 <= u1 * u1 + u2 * u2 + u3 * u3) by nra.
    assert (0 <= v1 * v1 + v2 * v2 + v3 * v3) by nra.
    nra. }
  assert (Hdot : u1 * v1 + u2 * v2 + u3 * v3 < u0 * v0).
  { assert (0 < u0 * v0) by nra.
    destruct (Rlt_dec (u1 * v1 + u2 * v2 + u3 * v3) (u0 * v0)) as [? | Hn];
      [assumption |].
    apply Rnot_lt_le in Hn. nra. }
  nra.
Qed.

(** The four-momentum that [set_4momentum] makes for a positive mass. *)
Lemma timelike_future_set_4momentum (m : R) (mom : ThreeVector.t)
      (p : ParticleData.t) :
  0 < m ->
  timelike_future (ParticleData.momentum (ParticleData.set_4momentum m mom p)).
Proof.
  intros Hm. destruct mom as [m1 m2 m3].
  unfold timelike_future, ParticleData.set_4momentum, FourVector.make,
    FourVector.threevec, ThreeVector.sqr, ThreeVector.dot. cbn.
  assert (Hq : 0 < m * m + (m1 * m1 + m2 * m2 + m3 * m3)) by nra.
  split; [apply sqrt_lt_R0; exact Hq |].
  rewrite sqrt_sqrt by lra. nra.
Qed.

(** The boost of a four-momentum at rest, of the invariant mass of [P],
    into the frame that moves with the velocity of [P] backwards, is [P]. *)
Lemma boost_of_rest_mass (P : FourVector.t) :
  timelike_future P ->
  FourVector.lorentz_boost (FourVector.mk (FourVector.abs P) 0 0 0)
    (ThreeVector.opp (FourVector.velocity P)) = P.
Proof.
  destruct P as [E p1 p2 p3].
  unfold timelike_future, FourVector.abs, FourVector.sqr, FourVector.velocity,
    FourVector.lorentz_boost, FourVector.threevec, FourVector.make,
    ThreeVector.sqr, ThreeVector.dot, ThreeVector.opp, ThreeVector.div,
    ThreeVector.scale, ThreeVector.add; cbn.
  intros [HE Hm].
  set (M := sqrt (E * E - (p1 * p1 + p2 * p2 + p3 * p3))).
  assert (HM : 0 < M) by (apply sqrt_lt_R0; lra).
  assert (HMM : M * M = E * E - (p1 * p1 + p2 * p2 + p3 * p3))
    by (apply sqrt_sqrt; lra).
  assert (Hg : sqrt (1 - (- (p1 / E) * - (p1 / E) + - (p2 / E) * - (p2 / E) +
                          - (p3 / E) * - (p3 / E))) = M / E).
  { replace (1 - _) with ((M / E) * (M / E)).
    - apply sqrt_square. apply Rmult_le_pos; [lra |].
      apply Rlt_le, Rinv_0_lt_compat. exact HE.
    - replace (M / E * (M / E)) with (M * M / (E * E)) by (field; lra).
      rewrite HMM. field. lra. }
  rewrite Hg.
  f_equal; field; lra.
Qed.

Lemma set_4momentum_at_rest (m : R) (p : ParticleData.t) :
  0 <= m ->
  ParticleData.momentum
    (ParticleData.set_4momentum m (ThreeVector.mk 0 0 0) p) =
  FourVector.mk m 0 0 0.
Proof.
  intros Hm. unfold ParticleData.set_4momentum, FourVector.make,
    ThreeVector.sqr, ThreeVector.dot; cbn.
  f_equal. replace (m * m + (0 * 0 + 0 * 0 + 0 * 0)) with (m * m) by ring.
  apply sqrt_square. exact Hm.
Qed.

Section FusionFacts.
Context `{Collaborators}.
Import ScatterActionMulti.

Lemma total_momentum_three (a : Action.t) (p1 p2 p3 : ParticleData.t) :
  Action.incoming_particles_ a = [p1; p2; p3] ->
  timelike_future (ParticleData.momentum p1) ->
  timelike_future (ParticleData.momentum p2) ->
  timelike_future (ParticleData.momentum p3) ->
  timelike_future (total_momentum_of_outgoing_particles a).
Proof.
  intros Hin H1 H2 H3. unfold total_momentum_of_outgoing_particles.
  rewrite Hin. cbn [fold_left].
  apply timelike_future_add; [| exact H3].
  apply timelike_future_add; [| exact H2].
  destruct (ParticleData.momentum p1) as [e x y z].
  unfold timelike_future, FourVector.add, FourVector.zero,
    FourVector.threevec, ThreeVector.sqr, ThreeVector.dot in *; cbn in *.
  destruct H1 as [He Hm]. split; [lra | nra].
Qed.

Lemma get_interaction_point_three (a : Action.t) (p1 p2 p3 : ParticleData.t) :
  Action.incoming_particles_ a = [p1; p2; p3] ->
  get_interaction_point a =
  mean3 (ParticleData.position p1) (ParticleData.position p2)
        (ParticleData.position p3).
Proof.
  intros Hin. unfold get_interaction_point, mean3. rewrite Hin.
  cbn [fold_left List.length].
  replace (INR 3) with 3 by (cbn; ring).
  destruct (ParticleData.position p1), (ParticleData.position p2),
    (ParticleData.position p3).
  unfold FourVector.div, FourVector.add, FourVector.zero; cbn.
  f_equal; field.
Qed.

Lemma generate_final_state_choice (s : state t) (proc : CollisionBranch.t)
      (g : RNG) :
  choose_channel (reaction_channels_ (this s)) (total_probability_ (this s))
                 (random s) = (proc, g) ->
  CollisionBranch.get_type proc = MultiParticleThreePionsToOmega ->
  generate_final_state s =
  match annihilation (with_channel proc g s) with
  | (Ok _, s1) =>
      let a := action (this s1) in
      (Ok tt,
       mkState
         (set_action
            (Action.set_outgoing_particles_
               (map (fun new_particle =>
                       ParticleData.set_4position (get_interaction_point a)
                         (ParticleData.boost_momentum
                            (ThreeVector.opp
                               (FourVector.velocity
                                  (total_momentum_of_outgoing_particles a)))
                            new_particle))
                    (Action.outgoing_particles_ a)) a) (this s1))
         (particles s1) (random s1) (events s1))
  | (Fail f, s1) => (Fail f, s1)
  end.
Proof.
  intros Hch Hty. unfold generate_final_state, with_channel.
  unfold bind, emit, modify, get, sample, set_this. cbn -[annihilation].
  rewrite Hch. cbn -[annihilation]. rewrite Hty.
  rewrite <- app_assoc. cbn -[annihilation].
  destruct (annihilation _) as [[[] | f] s1]; reflexivity.
Qed.

Lemma total_momentum_three_eq (a : Action.t) (p1 p2 p3 : ParticleData.t) :
  Action.incoming_particles_ a = [p1; p2; p3] ->
  total_momentum_of_outgoing_particles a =
  FourVector.add (FourVector.add (ParticleData.momentum p1)
                                 (ParticleData.momentum p2))
                 (ParticleData.momentum p3).
Proof.
  intros Hin. unfold total_momentum_of_outgoing_particles. rewrite Hin.
  cbn [fold_left].
  destruct (ParticleData.momentum p1), (ParticleData.momentum p2),
    (ParticleData.momentum p3).
  unfold FourVector.add, FourVector.zero; cbn. f_equal; ring.
Qed.

Lemma annihilation_wrong_number (s : state t) :
  List.length (outgoing s) <> 1%nat ->
  annihilation s = (Fail (Thrown (incorrect_number (List.length (outgoing s)))), s).
Proof.
  intros Hn. unfold annihilation, outgoing in *. run.
  apply Nat.eqb_neq in Hn. rewrite Hn. reflexivity.
Qed.

Lemma annihilation_one (s : state t) (p : ParticleData.t) :
  outgoing s = [p] ->
  annihilation s =
  (Ok tt,
   mkState
     (set_action
        (Action.set_outgoing_particles_
           [ParticleData.set_4momentum
              (FourVector.abs
                 (total_momentum_of_outgoing_particles (action (this s))))
              (ThreeVector.mk 0 0 0) p]
           (action (this s))) (this s))
     (particles s) (random s)
     (events s ++ [Log Debug "Momentum of the new particle"])).
Proof.
  intros Hout. unfold annihilation, outgoing in *. run. rewrite Hout.
  reflexivity.
Qed.

(** C3. For three incoming pions of pairwise different charges, each
    with the four-momentum of a massive particle, and the chosen channel
    of three pions to one omega: with one outgoing species,
    [annihilation] puts the outgoing particle at rest with the invariant
    mass of the combined incoming four-momentum [P], and
    [generate_final_state] returns with that single particle, its
    four-momentum equal to [P] and its position the mean of the three
    incoming positions; with any other number of outgoing species the
    call fails with [InvalidScatterActionMulti]. *)
Theorem generate_final_state_three_pions (s : state t)
        (proc : CollisionBranch.t) (g : RNG) (pi_1 pi_2 pi_3 : ParticleData.t) :
  choose_channel (reaction_channels_ (this s)) (total_probability_ (this s))
                 (random s) = (proc, g) ->
  CollisionBranch.get_type proc = MultiParticleThreePionsToOmega ->
  Action.incoming_particles_ (action (this s)) = [pi_1; pi_2; pi_3] ->
  three_different_pions pi_1 pi_2 pi_3 = true ->
  timelike_future (ParticleData.momentum pi_1) ->
  timelike_future (ParticleData.momentum pi_2) ->
  timelike_future (ParticleData.momentum pi_3) ->
  let P := FourVector.add (FourVector.add (ParticleData.momentum pi_1)
                                          (ParticleData.momentum pi_2))
                          (ParticleData.momentum pi_3) in
  (forall ty, CollisionBranch.particle_types proc = [ty] ->
     (exists p_rest,
        outgoing (snd (annihilation (with_channel proc g s))) = [p_rest] /\
        ParticleData.momentum p_rest = FourVector.mk (FourVector.abs P) 0 0 0) /\
     (exists p,
        fst (generate_final_state s) = Ok tt /\
        outgoing (snd (generate_final_state s)) = [p] /\
        ParticleData.type p = ty /\
        ParticleData.momentum p = P /\
        FourVector.abs (ParticleData.momentum p) = FourVector.abs P /\
        ParticleData.position p =
          mean3 (ParticleData.position pi_1) (ParticleData.position pi_2)
                (ParticleData.position pi_3))) /\
  (List.length (CollisionBranch.particle_types proc) <> 1%nat ->
   fst (generate_final_state s) =
   Fail (Thrown (incorrect_number
                   (List.length (CollisionBranch.particle_types proc))))).
Proof.
  intros Hch Hty Hin _ H1 H2 H3 P.
  rewrite (generate_final_state_choice s proc g Hch Hty).
  assert (Hin' : Action.incoming_particles_ (action (this (with_channel proc g s))) =
                 [pi_1; pi_2; pi_3]) by exact Hin.
  pose proof (total_momentum_three_eq _ _ _ _ Hin') as HP. fold P in HP.
  pose proof (total_momentum_three _ _ _ _ Hin' H1 H2 H3) as Htl.
  rewrite HP in Htl.
  split.
  - intros ty Hty1.
    assert (Hout : outgoing (with_channel proc g s) =
                   [ParticleData.mk (-1) ty FourVector.zero FourVector.zero
                                    HistoryData.initial]).
    { unfold outgoing, with_channel, CollisionBranch.particle_list. cbn.
      rewrite Hty1. reflexivity. }
    rewrite (annihilation_one _ _ Hout). rewrite HP.
    assert (Habs : 0 <= FourVector.abs P) by apply sqrt_pos.
    split.
    + eexists. split; [reflexivity |].
      apply set_4momentum_at_rest. exact Habs.
    + eexists. split; [reflexivity |].
      unfold outgoing. cbn [snd this action set_action
                             Action.outgoing_particles_
                             Action.set_outgoing_particles_ map].
      split; [reflexivity |]. split; [reflexivity |].
      assert (Hmom : forall q,
                ParticleData.momentum
                  (ParticleData.set_4position q
                     (ParticleData.boost_momentum
                        (ThreeVector.opp
                           (FourVector.velocity
                              (total_momentum_of_outgoing_particles
                                 (Action.set_outgoing_particles_
                                    [ParticleData.set_4momentum (FourVector.abs P)
                                       (ThreeVector.mk 0 0 0)
                                       (ParticleData.mk (-1) ty FourVector.zero
                                          FourVector.zero HistoryData.initial)]
                                    (action (this (with_channel proc g s)))))))
                        (ParticleData.set_4momentum (FourVector.abs P)
                           (ThreeVector.mk 0 0 0)
                           (ParticleData.mk (-1) ty FourVector.zero
                              FourVector.zero HistoryData.initial)))) = P).
      { intros q.
        assert (Hin2 : Action.incoming_particles_
                         (Action.set_outgoing_particles_
                            [ParticleData.set_4momentum (FourVector.abs P)
                               (ThreeVector.mk 0 0 0)
                               (ParticleData.mk (-1) ty FourVector.zero
                                  FourVector.zero HistoryData.initial)]
                            (action (this (with_channel proc g s)))) =
                       [pi_1; pi_2; pi_3]) by exact Hin.
        rewrite (total_momentum_three_eq _ _ _ _ Hin2). fold P.
        unfold ParticleData.set_4position, ParticleData.boost_momentum.
        cbn [ParticleData.momentum ParticleData.id ParticleData.type
             ParticleData.position ParticleData.history].
        rewrite (set_4momentum_at_rest _ _ Habs).
        apply boost_of_rest_mass. exact Htl. }
      split; [apply Hmom |]. split; [rewrite Hmom; reflexivity |].
      cbn [ParticleData.position ParticleData.set_4position].
      apply get_interaction_point_three. exact Hin.
  - intros Hlen.
    assert (Hout : List.length (outgoing (with_channel proc g s)) =
                   List.length (CollisionBranch.particle_types proc)).
    { unfold outgoing, with_channel, CollisionBranch.particle_list. cbn.
      apply length_map. }
    rewrite annihilation_wrong_number by (rewrite Hout; exact Hlen).
    rewrite Hout. reflexivity.
Qed.

End FusionFacts.


(* ================================================================== *)
(** * Further properties of the embedded code *)

(** ** Angles.h *)

Section AnglesMore.
Import Angles.

(** [distribute_isotropically] makes two draws, puts the azimuth in
    [0, 2 pi) and the cosine in [-1, 1), and forgets what the object held
    before. *)
Theorem distribute_isotropically_ranges (a b : t) (g : RNG) :
  uniform01 g ->
  0 <= phi_ (fst (distribute_isotropically a g)) < 2 * PI /\
  -1 <= costheta_ (fst (distribute_isotropically a g)) < 1 /\
  (forall n, snd (distribute_isotropically a g) n = g (2 + n)%nat) /\
  distribute_isotropically a g = distribute_isotropically b g.
Proof.
  intros Hu. pose proof PI_RGT_0 as Hpi.
  pose proof (Hu 0%nat) as H0. pose proof (Hu 1%nat) as H1.
  unfold distribute_isotropically, next, M_PI. cbn.
  repeat split; try nra.
Qed.

End AnglesMore.

(** ** numerics.h *)

Lemma almost_equal_true (delta x y : R) :
  almost_equal delta x y = true <->
  Rabs (x - y) <= delta \/ Rabs (x - y) <= 0.5 * delta * (Rabs x + Rabs y).
Proof.
  unfold almost_equal. rewrite orb_true_iff, !Rleb_true. reflexivity.
Qed.

(** [almost_equal] holds of a number and itself and does not depend on the
    order of its arguments; whatever is almost equal is almost equal for
    physics, the tolerance of which is the larger one. *)
Theorem almost_equal_relation (really_small small_number x y : R) :
  0 <= really_small <= small_number ->
  almost_equal really_small x x = true /\
  almost_equal really_small x y = almost_equal really_small y x /\
  (almost_equal really_small x y = true ->
   almost_equal_physics small_number x y = true).
Proof.
  intros [H0 Hle]. split; [| split].
  - apply almost_equal_true. left.
    replace (x - x) with 0 by ring. rewrite Rabs_R0. exact H0.
  - unfold almost_equal. rewrite (Rabs_minus_sym x y).
    rewrite (Rplus_comm (Rabs x) (Rabs y)). reflexivity.
  - intros Hae. apply almost_equal_true in Hae.
    change (almost_equal small_number x y = true). apply almost_equal_true.
    pose proof (Rabs_pos x). pose proof (Rabs_pos y).
    destruct Hae as [Ha | Hr]; [left; lra | right; nra].
Qed.

(** Two numbers that are almost equal differ by no more than the
    tolerance, or than the tolerance times the mean of their sizes; for
    numbers of size one at most this is the tolerance itself. *)
Theorem almost_equal_bound (really_small x y : R) :
  0 <= really_small ->
  almost_equal really_small x y = true ->
  Rabs (x - y) <= really_small * Rmax 1 ((Rabs x + Rabs y) / 2) /\
  (Rabs x <= 1 -> Rabs y <= 1 -> Rabs (x - y) <= really_small).
Proof.
  intros H0 Hae. apply almost_equal_true in Hae.
  pose proof (Rmax_l 1 ((Rabs x + Rabs y) / 2)) as Hl.
  pose proof (Rmax_r 1 ((Rabs x + Rabs y) / 2)) as Hr.
  split.
  - destruct Hae as [Ha | Hrel]; nra.
  - intros Hx Hy. destruct Hae as [Ha | Hrel]; nra.
Qed.

(** ** action.cc: the interaction point and the kinetic energy *)

Lemma FourVector_add_swap (acc u v : FourVector.t) :
  FourVector.add (FourVector.add acc u) v =
  FourVector.add (FourVector.add acc v) u.
Proof.
  destruct acc, u, v. unfold FourVector.add; cbn. f_equal; ring.
Qed.

Lemma sum_positions_permutation (l l' : ParticleList) :
  Permutation l l' ->
  forall acc,
    fold_left (fun acc part => FourVector.add acc (ParticleData.position part)) l acc =
    fold_left (fun acc part => FourVector.add acc (ParticleData.position part)) l' acc.
Proof.
  induction 1 as [| p l l' _ IH | p q l | l l' l'' _ IH1 _ IH2]; intros acc; cbn.
  - reflexivity.
  - apply IH.
  - rewrite FourVector_add_swap. reflexivity.
  - rewrite IH1. apply IH2.
Qed.

Section EnergyFacts.
Context `{Collaborators}.
Variable sqrt_s : Action.t -> R.
Import Action.

(** The interaction point does not depend on the order of the incoming
    particles; it is the position of a lone incoming particle and the
    midpoint of two. *)
Theorem get_interaction_point_mean (a b : t) :
  (Permutation (incoming_particles_ a) (incoming_particles_ b) ->
   get_interaction_point a = get_interaction_point b) /\
  (forall p, incoming_particles_ a = [p] ->
     get_interaction_point a = ParticleData.position p) /\
  (forall p q, incoming_particles_ a = [p; q] ->
     get_interaction_point a =
     FourVector.div (FourVector.add (ParticleData.position p)
                                    (ParticleData.position q)) 2).
Proof.
  split; [| split].
  - intros Hp. unfold get_interaction_point.
    rewrite (sum_positions_permutation _ _ Hp).
    rewrite (Permutation_length Hp). reflexivity.
  - intros p Hin. unfold get_interaction_point. rewrite Hin. cbn.
    destruct (ParticleData.position p).
    unfold FourVector.div, FourVector.add, FourVector.zero; cbn.
    f_equal; field.
  - intros p q Hin. unfold get_interaction_point. rewrite Hin. cbn.
    destruct (ParticleData.position p), (ParticleData.position q).
    unfold FourVector.div, FourVector.add, FourVector.zero; cbn.
    f_equal; field.
Qed.

Lemma scales_folds (a : t) (p_out_types : list ParticleType.t) :
  scales a p_out_types =
  fold_left (sub_scale a) p_out_types
    (fold_left (add_scale a) (map ParticleData.type (incoming_particles_ a)) (0, 0)).
Proof.
  unfold scales.
  assert (Hin : forall l acc,
            fold_left (fun '(scale_B, scale_I3) p_in =>
                         let scale := force_scale a (ParticleData.type p_in) in
                         (scale_B + fst scale,
                          scale_I3 + IZR (snd scale) *
                            ParticleType.isospin3_rel (ParticleData.type p_in)))
                      l acc =
            fold_left (add_scale a) (map ParticleData.type l) acc).
  { induction l as [| p l IH]; intros [b i]; cbn; [reflexivity | apply IH]. }
  assert (Hout : forall l acc,
            fold_left (fun '(scale_B, scale_I3) p_out =>
                         let scale := force_scale a p_out in
                         (scale_B - fst scale,
                          scale_I3 - IZR (snd scale) *
                            ParticleType.isospin3_rel p_out))
                      l acc =
            fold_left (sub_scale a) l acc).
  { induction l as [| p l IH]; intros [b i]; cbn; [reflexivity | apply IH]. }
  rewrite Hin, Hout. reflexivity.
Qed.

Lemma pair_eq (x y : R * R) : fst x = fst y -> snd x = snd y -> x = y.
Proof. destruct x, y; cbn; intros; subst; reflexivity. Qed.

Lemma sub_scale_permutation (a : t) (l l' : list ParticleType.t) :
  Permutation l l' ->
  forall acc, fold_left (sub_scale a) l acc = fold_left (sub_scale a) l' acc.
Proof.
  induction 1 as [| p l l' _ IH | p q l | l l' l'' _ IH1 _ IH2]; intros acc; cbn.
  - reflexivity.
  - apply IH.
  - f_equal. apply pair_eq; cbn; ring.
  - rewrite IH1. apply IH2.
Qed.

Lemma sub_scale_past_add (a : t) (l : list ParticleType.t) (ty : ParticleType.t) :
  forall acc,
    sub_scale a (fold_left (add_scale a) l acc) ty =
    fold_left (add_scale a) l (sub_scale a acc ty).
Proof.
  induction l as [| u l IH]; intros acc; cbn; [reflexivity |].
  rewrite IH. f_equal. apply pair_eq; cbn; ring.
Qed.

Lemma scales_cancel (a : t) (l : list ParticleType.t) :
  forall acc, fold_left (sub_scale a) l (fold_left (add_scale a) l acc) = acc.
Proof.
  induction l as [| ty l IH]; intros acc; cbn; [reflexivity |].
  rewrite sub_scale_past_add.
  replace (sub_scale a (add_scale a acc ty) ty) with acc; [apply IH |].
  apply pair_eq; cbn; ring.
Qed.

Lemma scales_without_potentials (a : t) (l : list ParticleType.t) :
  pot_ a = None -> scales a l = (0, 0).
Proof.
  intros Hp. rewrite scales_folds.
  assert (Hadd : forall l acc, fold_left (add_scale a) l acc = acc).
  { induction l0 as [| ty l0 IH]; intros acc; cbn; [reflexivity |].
    rewrite IH. unfold add_scale, force_scale. rewrite Hp. cbn.
    apply pair_eq; cbn; ring. }
  assert (Hsub : forall l acc, fold_left (sub_scale a) l acc = acc).
  { induction l0 as [| ty l0 IH]; intros acc; cbn; [reflexivity |].
    rewrite IH. unfold sub_scale, force_scale. rewrite Hp. cbn.
    apply pair_eq; cbn; ring. }
  rewrite Hadd, Hsub. reflexivity.
Qed.

(** Without a lattice attached, or without potentials, or where both
    lattices have no value at the interaction point,
    [kinetic_energy_cms] is [sqrt_s]. *)
Theorem kinetic_energy_cms_plain (a : t) :
  (no_lattice a -> kinetic_energy_cms sqrt_s a = sqrt_s a) /\
  (pot_ a = None -> kinetic_energy_cms sqrt_s a = sqrt_s a) /\
  (get_potential_at_interaction_point a = (0, 0) ->
   kinetic_energy_cms sqrt_s a = sqrt_s a).
Proof.
  assert (Hzero : get_potential_at_interaction_point a = (0, 0) ->
                  kinetic_energy_cms sqrt_s a = sqrt_s a).
  { intros Hz. unfold kinetic_energy_cms, kinetic_energy_cms_of. rewrite Hz.
    destruct (scales _ _) as [b i]. cbn. ring. }
  split; [| split].
  - intros [HB HI]. apply Hzero.
    unfold get_potential_at_interaction_point. rewrite HB, HI. reflexivity.
  - intros Hp. unfold kinetic_energy_cms, kinetic_energy_cms_of.
    rewrite (scales_without_potentials _ _ Hp). cbn. ring.
  - exact Hzero.
Qed.

(** When the outgoing species are the incoming ones, in any order, the
    force scales cancel and [kinetic_energy_cms] is [sqrt_s], whatever
    the potentials are. *)
Theorem kinetic_energy_cms_same_species (a : t) :
  Permutation (map ParticleData.type (outgoing_particles_ a))
              (map ParticleData.type (incoming_particles_ a)) ->
  scales a (map ParticleData.type (outgoing_particles_ a)) = (0, 0) /\
  kinetic_energy_cms sqrt_s a = sqrt_s a.
Proof.
  intros Hp.
  assert (Hs : scales a (map ParticleData.type (outgoing_particles_ a)) = (0, 0)).
  { rewrite scales_folds, (sub_scale_permutation _ _ _ Hp). apply scales_cancel. }
  split; [exact Hs |].
  unfold kinetic_energy_cms, kinetic_energy_cms_of. rewrite Hs. cbn. ring.
Qed.

End EnergyFacts.

(** ** action.cc: the two-body final state *)

Section TwoBodyFacts.
Context `{Collaborators}.
Variable sqrt_s : Action.t -> R.
Import Action.

(** [sample_masses] leaves the action, the collection and the log as they
    are; when it fails it has not drawn either. *)
Theorem sample_masses_frame (s : state t) :
  this (snd (sample_masses sqrt_s s)) = this s /\
  particles (snd (sample_masses sqrt_s s)) = particles s /\
  events (snd (sample_masses sqrt_s s)) = events s /\
  (forall f, fst (sample_masses sqrt_s s) = Fail f ->
             snd (sample_masses sqrt_s s) = s).
Proof.
  unfold sample_masses. run.
  destruct (outgoing_particles_ (this s)) as [| p_a [| p_b out_rest]]; cbn;
    try (repeat split; intros; reflexivity).
  destruct (Rltb _ _); cbn.
  - destruct (incoming_particles_ (this s)) as [| in_0 [| in_1 in_rest]]; cbn;
      repeat split; intros; reflexivity.
  - destruct (ParticleType.is_stable (ParticleData.type p_a)),
             (ParticleType.is_stable (ParticleData.type p_b)); cbn.
    + repeat split; intros; discriminate.
    + destruct (sample_resonance_mass _ _ _ _); cbn.
      repeat split; intros; discriminate.
    + destruct (sample_resonance_mass _ _ _ _); cbn.
      repeat split; intros; discriminate.
    + destruct (sample_resonance_masses _ _ _ _); cbn.
      repeat split; intros; discriminate.
Qed.

(** When [sample_masses] returns a pair of masses, the energy is at or
    above the threshold of the pair, and every stable particle of the pair
    has its pole mass. *)
Theorem sample_masses_returns (s : state t) (p_a p_b : ParticleData.t)
        (out_rest : ParticleList) (m_a m_b : R) :
  outgoing_particles_ (this s) = p_a :: p_b :: out_rest ->
  fst (sample_masses sqrt_s s) = Ok (m_a, m_b) ->
  threshold p_a p_b <= kinetic_energy_cms sqrt_s (this s) /\
  (ParticleType.is_stable (ParticleData.type p_a) = true ->
   m_a = ParticleType.mass (ParticleData.type p_a)) /\
  (ParticleType.is_stable (ParticleData.type p_b) = true ->
   m_b = ParticleType.mass (ParticleData.type p_b)).
Proof.
  intros Hout. unfold sample_masses. run. rewrite Hout. cbn.
  unfold threshold.
  destruct (Rltb _ _) eqn:E; cbn.
  - destruct (incoming_particles_ (this s)) as [| in_0 [| in_1 in_rest]]; cbn;
      discriminate.
  - apply Rltb_false in E.
    destruct (ParticleType.is_stable (ParticleData.type p_a)),
             (ParticleType.is_stable (ParticleData.type p_b)); cbn.
    + intros Hr; inversion Hr; subst. repeat split; assumption.
    + destruct (sample_resonance_mass _ _ _ _); cbn.
      intros Hr; inversion Hr; subst. repeat split; try assumption.
      discriminate.
    + destruct (sample_resonance_mass _ _ _ _); cbn.
      intros Hr; inversion Hr; subst. repeat split; try assumption.
      discriminate.
    + destruct (sample_resonance_masses _ _ _ _) as [[x y] g]; cbn.
      intros Hr; inversion Hr; subst. repeat split; try assumption;
        discriminate.
Qed.

Lemma sample_angles_state (s : state t) (masses : R * R)
      (p_a p_b : ParticleData.t) (out_rest : ParticleList) :
  outgoing_particles_ (this s) = p_a :: p_b :: out_rest ->
  sample_angles sqrt_s masses s =
  (Ok tt,
   mkState
     (set_outgoing_particles_
        (first_after sqrt_s (this s) masses (random s) p_a ::
         second_after sqrt_s (this s) masses (random s) p_b :: out_rest)
        (this s))
     (particles s) (shift 2 (random s))
     ((events s ++ momentum_warnings (pcm_of sqrt_s (this s) masses)) ++
      [Log Debug "p_a, p_b"])).
Proof.
  intros Hout. unfold sample_angles, first_after, second_after, pcm_of,
    momentum_warnings, drawn_direction. run. rewrite Hout. cbn.
  destruct (Rltb 0 _); cbn.
  - rewrite app_nil_r. reflexivity.
  - unfold modify. cbn. rewrite <- !app_assoc. reflexivity.
Qed.

(** With two outgoing particles or more, [sample_angles] returns, having
    made exactly two draws; it changes the four-momenta of the first two
    outgoing particles and nothing else of the action or the collection;
    the two three-momenta are opposite; and it warns exactly when the
    momentum is not positive.  With one outgoing particle it draws twice
    and assigns the momentum of that particle before the access to the
    second place leaves the vector.  With none it leaves the vector at the
    first place it reads: in the warning, with nothing drawn, when the
    momentum is not positive, and in the first assignment, after the two
    draws, otherwise. *)
Theorem sample_angles_frame (s : state t) (masses : R * R) :
  (forall p_a p_b out_rest,
     outgoing_particles_ (this s) = p_a :: p_b :: out_rest ->
     let s' := snd (sample_angles sqrt_s masses s) in
     fst (sample_angles sqrt_s masses s) = Ok tt /\
     particles s' = particles s /\
     (forall n, random s' n = random s (2 + n)%nat) /\
     incoming_particles_ (this s') = incoming_particles_ (this s) /\
     process_type_ (this s') = process_type_ (this s) /\
     (exists p_a' p_b',
        outgoing_particles_ (this s') = p_a' :: p_b' :: out_rest /\
        map ParticleData.id [p_a'; p_b'] = map ParticleData.id [p_a; p_b] /\
        map ParticleData.type [p_a'; p_b'] = map ParticleData.type [p_a; p_b] /\
        map ParticleData.position [p_a'; p_b'] =
          map ParticleData.position [p_a; p_b] /\
        map ParticleData.history [p_a'; p_b'] =
          map ParticleData.history [p_a; p_b] /\
        FourVector.threevec (ParticleData.momentum p_b') =
          ThreeVector.opp (FourVector.threevec (ParticleData.momentum p_a'))) /\
     ((exists msg, In (Log Warn msg) (new_events s s')) <->
      ~ 0 < pcm_of sqrt_s (this s) masses)) /\
  (forall p_a,
     outgoing_particles_ (this s) = [p_a] ->
     sample_angles sqrt_s masses s =
     (Fail OutOfBounds,
      mkState
        (set_outgoing_particles_
           [first_after sqrt_s (this s) masses (random s) p_a] (this s))
        (particles s) (shift 2 (random s))
        (events s ++ momentum_warnings (pcm_of sqrt_s (this s) masses)))) /\
  (outgoing_particles_ (this s) = [] ->
   sample_angles sqrt_s masses s =
   (Fail OutOfBounds,
    if Rltb 0 (pcm_of sqrt_s (this s) masses)
    then mkState (this s) (particles s) (shift 2 (random s)) (events s)
    else s)).
Proof.
  split; [| split].
  - intros p_a p_b out_rest Hout s'. subst s'.
    rewrite (sample_angles_state s masses p_a p_b out_rest Hout).
    cbn [fst snd this particles random events incoming_particles_
         process_type_ outgoing_particles_ set_outgoing_particles_].
    split; [reflexivity |]. split; [reflexivity |]. split; [reflexivity |].
    split; [reflexivity |]. split; [reflexivity |]. split.
    + do 2 eexists. split; [reflexivity |]. repeat split.
      unfold first_after, second_after, ParticleData.set_4momentum,
        FourVector.threevec, FourVector.make, ThreeVector.scale,
        ThreeVector.opp. cbn. f_equal; ring.
    + rewrite <- app_assoc. erewrite new_events_app by reflexivity.
      unfold momentum_warnings.
      destruct (Rltb 0 (pcm_of sqrt_s (this s) masses)) eqn:E.
      * apply Rltb_true in E. split; [| intros Hn; contradiction].
        intros [msg [Hin | []]]. discriminate.
      * apply Rltb_false in E. split; [intros _; lra |].
        intros _. eexists. left. reflexivity.
  - intros p_a Hout. unfold sample_angles, first_after, pcm_of,
      momentum_warnings, drawn_direction. run. rewrite Hout. cbn.
    destruct (Rltb 0 _); cbn.
    + rewrite app_nil_r. reflexivity.
    + unfold modify. cbn. rewrite <- !app_assoc. reflexivity.
  - intros Hout. unfold sample_angles, pcm_of. run. rewrite Hout. cbn.
    destruct (Rltb 0 _); cbn; [reflexivity | destruct s; reflexivity].
Qed.

Lemma sample_2body_phasespace_run (s : state t) :
  sample_2body_phasespace sqrt_s s =
  if Nat.eqb (List.length (outgoing_particles_ (this s))) 2 then
    match sample_masses sqrt_s s with
    | (Ok masses, s') => sample_angles sqrt_s masses s'
    | (Fail f, s') => (Fail f, s')
    end
  else (Fail AssertionFailed, s).
Proof.
  unfold sample_2body_phasespace, bind, get, assert, ret, raise.
  cbn -[sample_masses sample_angles].
  destruct (Nat.eqb _ 2); reflexivity.
Qed.

(** [sample_2body_phasespace] stops at its assertion when the outgoing
    particles are not two, and at the error of [sample_masses] when the
    energy is below the threshold of the pair (two incoming particles or
    more); in both cases nothing was drawn, logged or assigned. *)
Theorem sample_2body_phasespace_failures (s : state t) :
  (List.length (outgoing_particles_ (this s)) <> 2%nat ->
   sample_2body_phasespace sqrt_s s = (Fail AssertionFailed, s)) /\
  (forall p_a p_b in_0 in_1 in_rest,
     outgoing_particles_ (this s) = [p_a; p_b] ->
     incoming_particles_ (this s) = in_0 :: in_1 :: in_rest ->
     kinetic_energy_cms sqrt_s (this s) < threshold p_a p_b ->
     sample_2body_phasespace sqrt_s s =
     (Fail (Thrown (not_enough_energy sqrt_s (this s) in_0 in_1 p_a p_b)), s)).
Proof.
  split.
  - intros Hlen. rewrite sample_2body_phasespace_run.
    apply Nat.eqb_neq in Hlen. rewrite Hlen. reflexivity.
  - intros p_a p_b in_0 in_1 in_rest Hout Hin Hlt.
    rewrite sample_2body_phasespace_run, Hout. cbn [List.length Nat.eqb].
    rewrite (sample_masses_below_two_incoming sqrt_s s _ _ _ _ _ _ Hout Hin Hlt).
    reflexivity.
Qed.

(** For a pair of stable outgoing particles and an energy at or above
    their threshold, [sample_2body_phasespace] returns: both particles
    have their pole masses put in, with opposite three-momenta along one
    drawn direction, after two draws. *)
Theorem sample_2body_phasespace_stable_pair (s : state t)
        (p_a p_b : ParticleData.t) :
  outgoing_particles_ (this s) = [p_a; p_b] ->
  ParticleType.is_stable (ParticleData.type p_a) = true ->
  ParticleType.is_stable (ParticleData.type p_b) = true ->
  threshold p_a p_b <= kinetic_energy_cms sqrt_s (this s) ->
  let s' := snd (sample_2body_phasespace sqrt_s s) in
  let masses := pole_masses p_a p_b in
  fst (sample_2body_phasespace sqrt_s s) = Ok tt /\
  outgoing_particles_ (this s') =
    [first_after sqrt_s (this s) masses (random s) p_a;
     second_after sqrt_s (this s) masses (random s) p_b] /\
  ThreeVector.add
    (FourVector.threevec
       (ParticleData.momentum (first_after sqrt_s (this s) masses (random s) p_a)))
    (FourVector.threevec
       (ParticleData.momentum (second_after sqrt_s (this s) masses (random s) p_b))) =
    ThreeVector.zero /\
  particles s' = particles s /\
  (forall n, random s' n = random s (2 + n)%nat).
Proof.
  intros Hout Ha Hb Hge s' masses. subst s'.
  assert (Hrun : sample_2body_phasespace sqrt_s s =
                 sample_angles sqrt_s masses s).
  { rewrite sample_2body_phasespace_run, Hout. cbn [List.length Nat.eqb].
    rewrite (sample_masses_stable_pair sqrt_s s _ _ _ Hout Hge Ha Hb).
    reflexivity. }
  rewrite Hrun, (sample_angles_state s masses p_a p_b [] Hout).
  cbn [fst snd this particles random outgoing_particles_
       set_outgoing_particles_].
  split; [reflexivity |]. split; [reflexivity |].
  split; [| split; reflexivity].
  unfold first_after, second_after, ParticleData.set_4momentum,
    FourVector.threevec, FourVector.make, ThreeVector.scale, ThreeVector.opp,
    ThreeVector.add, ThreeVector.zero. cbn. f_equal; ring.
Qed.

End TwoBodyFacts.

(** ** action.cc: the checks and the commit *)

Section ChecksFacts.
Context `{Collaborators}.
Import Action.

(** [check_conservation] changes nothing but the log; it logs one error
    line, with the names of the incoming and the outgoing particles and
    the deviations, exactly when the snapshots differ. *)
Theorem check_conservation_log (s : state t) (id_process : N) :
  let s' := snd (check_conservation id_process s) in
  this s' = this s /\ particles s' = particles s /\ random s' = random s /\
  new_events s s' =
    Call_check_conservation id_process ::
    (if snapshots_differ (this s) then [violation_report (this s)] else []).
Proof.
  unfold check_conservation, snapshots_differ, violation_report. run.
  destruct (QuantumNumbers_neq _ _); cbn.
  - destruct (_ || _); cbn;
      [| destruct (N.eqb _ _); cbn];
      repeat split; rewrite <- app_assoc; apply new_events_app; reflexivity.
  - repeat split. apply new_events_app. reflexivity.
Qed.

(** [is_pauli_blocked] never changes the action or the collection; it
    draws at most once per outgoing baryon, and logs one line exactly when
    it blocks.  Without an outgoing baryon it answers no and leaves the
    whole state as it is. *)
Theorem is_pauli_blocked_frame (p_bl : PauliBlocker) (s : state t) :
  let s' := snd (is_pauli_blocked p_bl s) in
  this s' = this s /\ particles s' = particles s /\
  (exists k, (k <= outgoing_baryons (this s))%nat /\
             forall n, random s' n = random s (k + n)%nat) /\
  (new_events s s' <> [] <-> fst (is_pauli_blocked p_bl s) = Ok true) /\
  (outgoing_baryons (this s) = 0%nat ->
   is_pauli_blocked p_bl s = (Ok false, s)).
Proof.
  destruct (ProcessType_eqb (process_type_ (this s)) Wall) eqn:Ew.
  - assert (Hw : process_type_ (this s) = Wall)
      by (destruct (process_type_ (this s)); try discriminate; reflexivity).
    assert (Hrun : is_pauli_blocked p_bl s = (Ok false, s))
      by (unfold is_pauli_blocked; run; rewrite Hw; reflexivity).
    rewrite Hrun. cbn.
    split; [reflexivity |]. split; [reflexivity |]. split; [| split].
    + exists 0%nat. split; [lia | reflexivity].
    + unfold new_events. rewrite skipn_all. split; [congruence | discriminate].
    + reflexivity.
  - assert (Hw : process_type_ (this s) <> Wall)
      by (intros Hw; rewrite Hw in Ew; discriminate).
    rewrite (is_pauli_blocked_run p_bl s Hw), is_pauli_blocked_loop_run.
    fold (densities p_bl s).
    assert (Hlen : List.length (densities p_bl s) = outgoing_baryons (this s)).
    { unfold densities, densities_of, outgoing_baryons. apply length_map. }
    destruct (first_blocked (densities p_bl s) (random s)) as [k |] eqn:E; cbn.
    + apply first_blocked_Some in E. destruct E as [[f [Hf _]] _].
      assert (Hk : (k < List.length (densities p_bl s))%nat)
        by (apply nth_error_Some; congruence).
      split; [reflexivity |]. split; [reflexivity |]. split; [| split].
      * exists (S k). split; [lia | reflexivity].
      * erewrite new_events_app by reflexivity.
        split; [reflexivity | discriminate].
      * intros Hz. lia.
    + split; [reflexivity |]. split; [reflexivity |]. split; [| split].
      * exists (List.length (densities p_bl s)). split; [lia | reflexivity].
      * unfold new_events. cbn. rewrite skipn_all.
        split; [congruence | discriminate].
      * intros Hz. rewrite Hlen, Hz. destruct s; reflexivity.
Qed.

Lemma perform_state (s : state t) (id_process : N) :
  id_process <> 0%N ->
  let s' := snd (perform id_process s) in
  this s' = this (committed id_process s) /\
  particles s' = particles (committed id_process s) /\
  random s' = random s.
Proof.
  intros Hid. cbv zeta. rewrite (perform_run s id_process Hid).
  destruct (UB_lat_ (this s)), (UI3_lat_ (this s)); cbn [snd];
    try (repeat split; reflexivity).
  destruct (check_conservation_frame (committed id_process s) id_process)
    as (Ht & Hp & Hr & _).
  rewrite Ht, Hp, Hr. repeat split; reflexivity.
Qed.

(** [perform] never draws and never changes the incoming particles, the
    process type or the time of the action; whether it returns or throws,
    the outgoing particles of the action are those that the update of the
    collection gave back. *)
Theorem perform_frame (s : state t) (id_process : N) :
  id_process <> 0%N ->
  let s' := snd (perform id_process s) in
  random s' = random s /\
  incoming_particles_ (this s') = incoming_particles_ (this s) /\
  process_type_ (this s') = process_type_ (this s) /\
  time_of_execution_ (this s') = time_of_execution_ (this s) /\
  outgoing_particles_ (this s') =
    snd (Particles_update (particles s) (incoming_particles_ (this s))
                          (stamped (this s) id_process)
                          (do_replace_of (process_type_ (this s)))).
Proof.
  intros Hid s'. destruct (perform_state s id_process Hid) as (Ht & _ & Hr).
  subst s'. rewrite Ht, Hr. unfold committed. cbn. repeat split; reflexivity.
Qed.

(** A violation of the conservation laws is found after the commit: when
    [perform] throws for it, the collection already holds the update. *)
Theorem perform_violation_after_update (s : state t) (id_process : N) :
  id_process <> 0%N ->
  no_lattice (this s) ->
  snapshots_differ (this (committed id_process s)) = true ->
  is_string_process (process_type_ (this s)) = false ->
  (exists what,
     fst (perform id_process s) = Fail (Thrown (runtime_error what))) /\
  particles (snd (perform id_process s)) =
    fst (Particles_update (particles s) (incoming_particles_ (this s))
                          (stamped (this s) id_process)
                          (do_replace_of (process_type_ (this s)))) /\
  In (Call_update (incoming_particles_ (this s)) (stamped (this s) id_process)
                  (do_replace_of (process_type_ (this s))))
     (new_events s (snd (perform id_process s))).
Proof.
  intros Hid [HB HI] Hd Hs.
  destruct (perform_state s id_process Hid) as (_ & Hp & _).
  split; [| split].
  - rewrite (perform_run s id_process Hid), HB, HI.
    assert (Hs' : is_string_process (process_type_ (this (committed id_process s))) = false)
      by exact Hs.
    destruct (N.eq_dec id_process ID_PROCESS_PHOTON) as [-> | Hne].
    + rewrite (check_conservation_photon _ Hd Hs'). eexists. reflexivity.
    + rewrite (check_conservation_other _ _ Hd Hs' Hne). eexists. reflexivity.
  - rewrite Hp. reflexivity.
  - rewrite (perform_run s id_process Hid), HB, HI.
    destruct (check_conservation_frame (committed id_process s) id_process)
      as (_ & _ & _ & more & Hev & _).
    unfold committed in Hev at 2. cbn [events] in Hev.
    rewrite <- app_assoc in Hev. rewrite (new_events_app _ _ _ Hev).
    left. reflexivity.
Qed.

End ChecksFacts.

(** ** scatteractionmulti.cc *)

Section MultiFacts.
Context `{Collaborators}.
Import ScatterActionMulti.

Lemma generate_final_state_other (s : state t) (proc : CollisionBranch.t)
      (g : RNG) :
  choose_channel (reaction_channels_ (this s)) (total_probability_ (this s))
                 (random s) = (proc, g) ->
  CollisionBranch.get_type proc <> MultiParticleThreePionsToOmega ->
  generate_final_state s =
  (Fail (Thrown (invalid_process_type (CollisionBranch.get_type proc))),
   with_channel proc g s).
Proof.
  intros Hch Hty. unfold generate_final_state, with_channel, invalid_process_type.
  unfold bind, emit, modify, get, sample, set_this, throw, raise.
  cbn -[annihilation]. rewrite Hch. cbn -[annihilation].
  rewrite <- app_assoc.
  destruct (CollisionBranch.get_type proc); try reflexivity. congruence.
Qed.

(** A chosen channel of any process type but that of three pions to one
    omega makes [generate_final_state] throw [InvalidScatterActionMulti];
    the action has taken over the process type, the outgoing particles
    and the weight of the channel by then, and the collection is as it
    was. *)
Theorem generate_final_state_unsupported (s : state t) :
  let proc := fst (choose_channel (reaction_channels_ (this s))
                                  (total_probability_ (this s)) (random s)) in
  CollisionBranch.get_type proc <> MultiParticleThreePionsToOmega ->
  let s' := snd (generate_final_state s) in
  fst (generate_final_state s) =
    Fail (Thrown (invalid_process_type (CollisionBranch.get_type proc))) /\
  Action.process_type_ (action (this s')) = CollisionBranch.get_type proc /\
  outgoing s' = CollisionBranch.particle_list proc /\
  partial_probability_ (this s') = CollisionBranch.weight proc /\
  particles s' = particles s.
Proof.
  intros proc Hty s'. subst s' proc.
  destruct (choose_channel _ _ _) as [proc g] eqn:Hch. cbn [fst] in *.
  rewrite (generate_final_state_other s proc g Hch Hty).
  repeat split; reflexivity.
Qed.

(** Whenever [generate_final_state] returns, the chosen channel was the
    one of three pions to one omega with a single outgoing species; the
    action then has that process type, the weight of the channel as its
    partial weight and one outgoing particle of that species at the
    interaction point; the incoming particles, the channels, the total
    weight and the collection are as they were. *)
Theorem generate_final_state_returns (s : state t) :
  fst (generate_final_state s) = Ok tt ->
  let proc := fst (choose_channel (reaction_channels_ (this s))
                                  (total_probability_ (this s)) (random s)) in
  let s' := snd (generate_final_state s) in
  CollisionBranch.get_type proc = MultiParticleThreePionsToOmega /\
  Action.process_type_ (action (this s')) = MultiParticleThreePionsToOmega /\
  get_partial_weight (this s') = CollisionBranch.weight proc /\
  (exists p,
     outgoing s' = [p] /\
     CollisionBranch.particle_types proc = [ParticleData.type p] /\
     ParticleData.position p = get_interaction_point (action (this s))) /\
  Action.incoming_particles_ (action (this s')) =
    Action.incoming_particles_ (action (this s)) /\
  reaction_channels_ (this s') = reaction_channels_ (this s) /\
  get_total_weight (this s') = get_total_weight (this s) /\
  particles s' = particles s.
Proof.
  intros Hok proc s'. subst s' proc.
  destruct (choose_channel _ _ _) as [proc g] eqn:Hch. cbn [fst].
  destruct (CollisionBranch.get_type proc) eqn:Hty;
    try (rewrite (generate_final_state_other s proc g Hch) in Hok
           by (rewrite Hty; discriminate);
         discriminate).
  rewrite (generate_final_state_choice s proc g Hch Hty) in *.
  destruct (CollisionBranch.particle_types proc) as [| ty [| ty' tys]] eqn:Hpt.
  - rewrite annihilation_wrong_number in Hok
      by (unfold outgoing, with_channel, CollisionBranch.particle_list;
          cbn; rewrite Hpt; discriminate).
    discriminate.
  - assert (Hout : outgoing (with_channel proc g s) =
                   [ParticleData.mk (-1) ty FourVector.zero FourVector.zero
                                    HistoryData.initial]).
    { unfold outgoing, with_channel, CollisionBranch.particle_list. cbn.
      rewrite Hpt. reflexivity. }
    rewrite (annihilation_one _ _ Hout). cbn.
    split; [reflexivity |]. split; [exact Hty |]. split; [reflexivity |].
    split; [| repeat split; reflexivity].
    eexists. split; [reflexivity |]. split; reflexivity.
  - rewrite annihilation_wrong_number in Hok
      by (unfold outgoing, with_channel, CollisionBranch.particle_list;
          cbn; rewrite Hpt; cbn; lia).
    discriminate.
Qed.

(** [three_different_pions] holds exactly when each of the three pion
    charges is that of one of the three particles, and does not depend on
    their order. *)
Theorem three_different_pions_spec (a b c : ParticleData.t) :
  (three_different_pions a b c = true <->
   In Pdg.pi_p (map ParticleData.pdgcode [a; b; c]) /\
   In Pdg.pi_m (map ParticleData.pdgcode [a; b; c]) /\
   In Pdg.pi_z (map ParticleData.pdgcode [a; b; c])) /\
  three_different_pions a b c = three_different_pions b a c /\
  three_different_pions a b c = three_different_pions a c b.
Proof.
  unfold three_different_pions, Pdg.is_pion. cbn [map In].
  set (x := ParticleData.pdgcode a). set (y := ParticleData.pdgcode b).
  set (z := ParticleData.pdgcode c).
  split; [| split].
  - split.
    + intros Ht.
      repeat rewrite andb_true_iff in Ht. repeat rewrite orb_true_iff in Ht.
      repeat rewrite negb_true_iff in Ht. repeat rewrite Z.eqb_eq in Ht.
      repeat rewrite Z.eqb_neq in Ht.
      destruct Ht as [[[Hx Hy] Hz] [[Hxy Hyz] Hzx]].
      unfold Pdg.pi_p, Pdg.pi_m, Pdg.pi_z in *.
      destruct Hx as [[Hx | Hx] | Hx], Hy as [[Hy | Hy] | Hy],
               Hz as [[Hz | Hz] | Hz];
        try (exfalso; congruence); subst x y z; rewrite Hx, Hy, Hz;
        repeat split; auto.
    + unfold Pdg.pi_p, Pdg.pi_m, Pdg.pi_z.
      intros [[Hp | [Hp | [Hp | []]]] [[Hm | [Hm | [Hm | []]]]
                                         [Hz | [Hz | [Hz | []]]]]];
        try (exfalso; congruence); rewrite Hp, Hm, Hz; reflexivity.
  - rewrite (Z.eqb_sym x y), (Z.eqb_sym y z), (Z.eqb_sym z x).
    destruct (Z.eqb x Pdg.pi_z || Z.eqb x Pdg.pi_p || Z.eqb x Pdg.pi_m),
             (Z.eqb y Pdg.pi_z || Z.eqb y Pdg.pi_p || Z.eqb y Pdg.pi_m),
             (Z.eqb z Pdg.pi_z || Z.eqb z Pdg.pi_p || Z.eqb z Pdg.pi_m),
             (Z.eqb y x), (Z.eqb z y), (Z.eqb x z); reflexivity.
  - rewrite (Z.eqb_sym x y), (Z.eqb_sym y z), (Z.eqb_sym z x).
    destruct (Z.eqb x Pdg.pi_z || Z.eqb x Pdg.pi_p || Z.eqb x Pdg.pi_m),
             (Z.eqb y Pdg.pi_z || Z.eqb y Pdg.pi_p || Z.eqb y Pdg.pi_m),
             (Z.eqb z Pdg.pi_z || Z.eqb z Pdg.pi_p || Z.eqb z Pdg.pi_m),
             (Z.eqb y x), (Z.eqb z y), (Z.eqb x z); reflexivity.
Qed.

End MultiFacts.

Section OfferFacts.
Context `{Collaborators}.
Import ScatterActionMulti.
Variable try_find : PdgCode -> option ParticleType.t.
Variable get_partial_width : ParticleType.t -> R -> list ParticleType.t -> R.
Variable spin_degeneracy : ParticleType.t -> Z.
Variable spectral_function : ParticleType.t -> R -> R.
Variable hbarc : R.
Variable sqrt_s : Action.t -> R.
Variable add_process :
  CollisionBranch.t -> list CollisionBranch.t -> R ->
  list CollisionBranch.t * R.

Let probability :=
  probability_three_pi_to_one get_partial_width spin_degeneracy
                              spectral_function hbarc sqrt_s.
Let offer :=
  add_possible_reactions try_find get_partial_width spin_degeneracy
                         spectral_function hbarc sqrt_s add_process.

Let value :=
  three_pi_probability get_partial_width spin_degeneracy spectral_function
                       hbarc sqrt_s.

Lemma probability_three_pi_to_one_run (s : state t) (type_out : ParticleType.t)
      (in_0 in_1 in_2 : ParticleData.t) (in_rest : ParticleList)
      (dt gcell_vol : R) :
  Action.incoming_particles_ (action (this s)) = in_0 :: in_1 :: in_2 :: in_rest ->
  probability type_out dt gcell_vol s =
  (Ok (value type_out (action (this s)) in_0 in_1 in_2 dt gcell_vol), s).
Proof.
  intros Hin. subst probability value.
  unfold probability_three_pi_to_one, three_pi_probability.
  unfold bind, get, at_, ret. cbn [fst snd]. rewrite Hin. reflexivity.
Qed.

(** With three incoming particles [probability_three_pi_to_one] returns
    without a change of the state; its value is proportional to the time
    step and to the inverse square of the cell volume.  With fewer
    incoming particles it reads outside the vector. *)
Theorem probability_three_pi_to_one_scaling (s : state t)
        (type_out : ParticleType.t) :
  (forall in_0 in_1 in_2 in_rest,
     Action.incoming_particles_ (action (this s)) =
       in_0 :: in_1 :: in_2 :: in_rest ->
     exists P : R -> R -> R,
       (forall dt gcell_vol,
          probability type_out dt gcell_vol s = (Ok (P dt gcell_vol), s)) /\
       (forall c dt gcell_vol, P (c * dt) gcell_vol = c * P dt gcell_vol) /\
       (forall c dt gcell_vol,
          P dt (c * gcell_vol) = P dt gcell_vol / (c * c))) /\
  ((List.length (Action.incoming_particles_ (action (this s))) < 3)%nat ->
   forall dt gcell_vol,
     probability type_out dt gcell_vol s = (Fail OutOfBounds, s)).
Proof.
  split.
  - intros in_0 in_1 in_2 in_rest Hin.
    exists (value type_out (action (this s)) in_0 in_1 in_2).
    split; [| split].
    + intros dt gcell_vol.
      apply (probability_three_pi_to_one_run s type_out _ _ _ _ _ _ Hin).
    + intros c dt gcell_vol. subst value. unfold three_pi_probability, Rdiv.
      ring.
    + intros c dt gcell_vol. subst value. unfold three_pi_probability, Rdiv.
      rewrite !Rinv_mult. ring.
  - intros Hlen dt gcell_vol. subst probability.
    unfold probability_three_pi_to_one. run.
    destruct (Action.incoming_particles_ (action (this s)))
      as [| in_0 [| in_1 [| in_2 in_rest]]]; cbn in *; try reflexivity. lia.
Qed.

Lemma add_possible_reactions_run (s : state t) (dt gcell_vol : R)
      (three_to_one : bool) :
  offer dt gcell_vol three_to_one s =
  match three_to_one, Action.incoming_particles_ (action (this s)) with
  | true, [in_0; in_1; in_2] =>
      if three_different_pions in_0 in_1 in_2 then
        match try_find 0x223%Z with
        | Some type_omega =>
            (Ok tt,
             with_reaction add_process
               (CollisionBranch.mk [type_omega]
                  (value type_omega (action (this s)) in_0 in_1 in_2 dt gcell_vol)
                  MultiParticleThreePionsToOmega) s)
        | None => (Ok tt, s)
        end
      else (Ok tt, s)
  | _, _ => (Ok tt, s)
  end.
Proof.
  subst offer value probability.
  unfold add_possible_reactions, probability_three_pi_to_one, add_reaction,
    with_reaction, three_pi_probability.
  unfold bind, get, at_, ret, set_this, modify.
  cbn -[pow three_different_pions].
  destruct three_to_one; [| reflexivity].
  destruct (Action.incoming_particles_ (action (this s)))
    as [| in_0 [| in_1 [| in_2 [| in_3 in_rest]]]] eqn:Hin;
    cbn -[pow three_different_pions]; try reflexivity.
  destruct (three_different_pions in_0 in_1 in_2); [| reflexivity].
  destruct (try_find 547%Z) as [type_omega |]; [| reflexivity].
  rewrite ?Hin. cbn -[pow three_different_pions].
  destruct (add_process _ _ _) as [channels total]. reflexivity.
Qed.

(** [add_possible_reactions] always returns: it reads the three incoming
    particles only when there are exactly three.  When this is asked for,
    the incoming particles are three different pions and the omega is a
    known species, it adds one reaction: three pions to that omega, with
    the probability of [probability_three_pi_to_one].  In every other
    case (not asked for, a number of incoming particles other than three,
    three particles that are not three different pions, an unknown omega)
    it leaves the state as it is. *)
Theorem add_possible_reactions_offer (s : state t) (dt gcell_vol : R)
        (three_to_one : bool) :
  fst (offer dt gcell_vol three_to_one s) = Ok tt /\
  (forall in_0 in_1 in_2 type_omega,
     three_to_one = true ->
     Action.incoming_particles_ (action (this s)) = [in_0; in_1; in_2] ->
     three_different_pions in_0 in_1 in_2 = true ->
     try_find 0x223%Z = Some type_omega ->
     fst (probability type_omega dt gcell_vol s) =
       Ok (value type_omega (action (this s)) in_0 in_1 in_2 dt gcell_vol) /\
     snd (offer dt gcell_vol three_to_one s) =
       with_reaction add_process
         (CollisionBranch.mk [type_omega]
            (value type_omega (action (this s)) in_0 in_1 in_2 dt gcell_vol)
            MultiParticleThreePionsToOmega) s) /\
  (three_to_one = false \/
   List.length (Action.incoming_particles_ (action (this s))) <> 3%nat \/
   (exists in_0 in_1 in_2,
      Action.incoming_particles_ (action (this s)) = [in_0; in_1; in_2] /\
      three_different_pions in_0 in_1 in_2 = false) \/
   try_find 0x223%Z = None ->
   snd (offer dt gcell_vol three_to_one s) = s).
Proof.
  rewrite add_possible_reactions_run. split; [| split].
  - destruct three_to_one; [| reflexivity].
    destruct (Action.incoming_particles_ (action (this s)))
      as [| in_0 [| in_1 [| in_2 [| in_3 in_rest]]]]; try reflexivity.
    destruct (three_different_pions in_0 in_1 in_2); [| reflexivity].
    destruct (try_find 547%Z); reflexivity.
  - intros in_0 in_1 in_2 type_omega Hflag Hin Hp Hf.
    rewrite (probability_three_pi_to_one_run s type_omega _ _ _ _ dt gcell_vol Hin).
    rewrite Hflag, Hin, Hp, Hf. split; reflexivity.
  - intros [Hc | [Hc | [(in_0 & in_1 & in_2 & Hin & Hp) | Hc]]].
    + rewrite Hc. reflexivity.
    + destruct three_to_one; [| reflexivity].
      destruct (Action.incoming_particles_ (action (this s)))
        as [| in_0 [| in_1 [| in_2 [| in_3 in_rest]]]]; try reflexivity.
      cbn in Hc. congruence.
    + destruct three_to_one; [| reflexivity].
      rewrite Hin, Hp. reflexivity.
    + destruct three_to_one; [| reflexivity].
      destruct (Action.incoming_particles_ (action (this s)))
        as [| in_0 [| in_1 [| in_2 [| in_3 in_rest]]]]; try reflexivity.
      rewrite Hc. destruct (three_different_pions in_0 in_1 in_2); reflexivity.
Qed.

End OfferFacts.

(** ** propagation.cc *)

Section PropagationFacts.
Import Propagation.
Variable Box : Type.
Variable boundary_condition : FourVector.t -> Box -> FourVector.t.
Variable eps : R.
Variable box : Box.

(** [propagate_particles] keeps the number and the order of the
    particles, their ids, process types and velocities; it leaves a
    particle with a positive process type where it is, and gives every
    other particle the position that [boundary_condition] makes of its
    position moved by [eps] in time and by velocity times [eps] in space. *)
Theorem propagate_particles_frame (particles : list ParticleData) :
  let moved := propagate_particles Box boundary_condition eps box particles in
  List.length moved = List.length particles /\
  map id moved = map id particles /\
  map process_type moved = map process_type particles /\
  map (fun p => (velocity_x p, velocity_y p, velocity_z p)) moved =
    map (fun p => (velocity_x p, velocity_y p, velocity_z p)) particles /\
  (forall i p, nth_error particles i = Some p ->
     exists q, nth_error moved i = Some q /\
       ((0 < process_type p)%Z -> q = p) /\
       ((process_type p <= 0)%Z ->
        position q =
        boundary_condition
          (FourVector.add (position p)
             (FourVector.mk eps (velocity_x p * eps) (velocity_y p * eps)
                            (velocity_z p * eps))) box)).
Proof.
  cbv zeta. unfold propagate_particles.
  assert (Hone : forall p,
            id (propagate_one Box boundary_condition eps box p) = id p /\
            process_type (propagate_one Box boundary_condition eps box p) =
              process_type p /\
            (velocity_x (propagate_one Box boundary_condition eps box p),
             velocity_y (propagate_one Box boundary_condition eps box p),
             velocity_z (propagate_one Box boundary_condition eps box p)) =
              (velocity_x p, velocity_y p, velocity_z p)).
  { intros p. unfold propagate_one.
    destruct (Z.ltb 0 (process_type p)); repeat split; reflexivity. }
  split; [apply length_map |].
  split; [rewrite map_map; apply map_ext; intros p; apply (Hone p) |].
  split; [rewrite map_map; apply map_ext; intros p; apply (Hone p) |].
  split; [rewrite map_map; apply map_ext; intros p; apply (Hone p) |].
  intros i p Hi. eexists. split; [apply map_nth_error; exact Hi |].
  unfold propagate_one. split.
  - intros Hpos. apply Z.ltb_lt in Hpos. rewrite Hpos. reflexivity.
  - intros Hle. apply Z.ltb_ge in Hle. rewrite Hle. reflexivity.
Qed.

End PropagationFacts.
(* ================================================================== *)
(** * The properties on the examples *)

#[local] Existing Instance World.collaborators.

Lemma uniform01_half : uniform01 World.half.
Proof. intros n. unfold World.half. lra. Defined.

Lemma kinetic_energy_elastic :
  kinetic_energy_cms World.sqrt_s (this Collision.s_elastic) = 1.
Proof.
  unfold kinetic_energy_cms, kinetic_energy_cms_of. cbn. lra.
Defined.

Lemma timelike_future_at_rest (i : Z) (ty : ParticleType.t) (x : FourVector.t) :
  0 < ParticleType.mass ty ->
  timelike_future
    (ParticleData.momentum (ThreePions.at_point (World.at_rest i ty) x)).
Proof.
  intros Hm. unfold timelike_future, ThreeVector.sqr, ThreeVector.dot. cbn.
  split; [exact Hm | nra].
Defined.

(** C1 on the pair of pions that is turned into a lone proton by process
    7. *)
Lemma check_conservation_violation_example :
  snapshots_differ (this Collision.s_violating) = true /\
  exists f, fst (check_conservation 7 Collision.s_violating) = Fail f.
Proof.
  split; [reflexivity |].
  apply (proj1 (@check_conservation_violation World.collaborators
                  Collision.s_violating 7%N eq_refl)).
  split; discriminate.
Defined.

(** C2 on the same action, an outgoing proton with density 0 around it. *)
Lemma is_pauli_blocked_spec_example :
  Action.process_type_ (this Collision.s_violating) <> Wall /\
  uniform01 (random Collision.s_violating) /\
  Forall (fun f => f = 0)
         (@densities World.collaborators 0 Collision.s_violating) /\
  fst (@is_pauli_blocked World.collaborators 0 Collision.s_violating) = Ok false.
Proof.
  assert (Hw : Action.process_type_ (this Collision.s_violating) <> Wall)
    by discriminate.
  assert (Hd : Forall (fun f => f = 0)
                      (@densities World.collaborators 0 Collision.s_violating))
    by (repeat constructor).
  split; [exact Hw |]. split; [exact uniform01_half |]. split; [exact Hd |].
  exact (proj1 (proj1 (proj2 (@is_pauli_blocked_spec World.collaborators 0
                                Collision.s_violating))
                      Hw uniform01_half) Hd).
Defined.

(** C3 on a pion of each charge at rest and the channel to one omega. *)
Lemma generate_final_state_three_pions_example :
  three_different_pions
    (ThreePions.at_point (World.at_rest 1 World.pi_plus) (FourVector.mk 0 3 0 0))
    (ThreePions.at_point (World.at_rest 2 World.pi_minus) (FourVector.mk 0 0 3 0))
    (ThreePions.at_point (World.at_rest 3 World.pi_zero) (FourVector.mk 0 0 0 3)) = true /\
  exists p,
    fst (generate_final_state ThreePions.s0) = Ok tt /\
    outgoing (snd (generate_final_state ThreePions.s0)) = [p] /\
    ParticleData.momentum p =
      FourVector.add (FourVector.add (FourVector.mk (7 / 50) 0 0 0)
                                     (FourVector.mk (7 / 50) 0 0 0))
                     (FourVector.mk (7 / 50) 0 0 0) /\
    ParticleData.position p =
      mean3 (FourVector.mk 0 3 0 0) (FourVector.mk 0 0 3 0) (FourVector.mk 0 0 0 3).
Proof.
  assert (Hm : 0 < 7 / 50) by lra.
  split; [reflexivity |].
  destruct (proj1 (@generate_final_state_three_pions World.collaborators
                     ThreePions.s0 ThreePions.to_omega (shift 1 World.half)
                     _ _ _ eq_refl eq_refl eq_refl eq_refl
                     (timelike_future_at_rest 1 World.pi_plus _ Hm)
                     (timelike_future_at_rest 2 World.pi_minus _ Hm)
                     (timelike_future_at_rest 3 World.pi_zero _ Hm))
                  World.omega eq_refl)
    as [_ [p (Hok & Hout & _ & Hmom & _ & Hpos)]].
  exists p. repeat split; assumption.
Defined.

(** C4 on the elastic scattering of the two pions, with their pole
    masses and two draws of one half. *)
Lemma sample_angles_two_body_example :
  exists (p_a' p_b' : ParticleData.t),
    Action.outgoing_particles_
      (this (snd (sample_angles World.sqrt_s (7 / 50, 7 / 50) Collision.s_elastic))) =
      [p_a'; p_b'] /\
    FourVector.threevec (ParticleData.momentum p_a') =
      ThreeVector.scale (direction_of_draws (1 / 2) (1 / 2))
                        (pCM 1 (7 / 50) (7 / 50)) /\
    FourVector.x0 (ParticleData.momentum p_a') +
    FourVector.x0 (ParticleData.momentum p_b') = 1.
Proof.
  assert (Hm : 0 <= 7 / 50) by lra.
  assert (HE : 0 < kinetic_energy_cms World.sqrt_s (this Collision.s_elastic))
    by (rewrite kinetic_energy_elastic; lra).
  assert (Hthr : 7 / 50 + 7 / 50 <=
                 kinetic_energy_cms World.sqrt_s (this Collision.s_elastic))
    by (rewrite kinetic_energy_elastic; lra).
  destruct (@sample_angles_two_body World.collaborators World.sqrt_s
              Collision.s_elastic (7 / 50) (7 / 50) _ _ eq_refl
              uniform01_half Hm Hm HE Hthr)
    as (p_a' & p_b' & _ & _ & Hout & _ & Hdir & _ & _ & _ & _ & Hsum).
  exists p_a', p_b'. rewrite kinetic_energy_elastic in Hsum, Hdir.
  repeat split; assumption.
Defined.

(** C6 on the elastic scattering, to which no lattice is attached. *)
Lemma perform_checks_conservation_example :
  7%N <> 0%N /\
  In (Call_check_conservation 7)
     (new_events Collision.s_elastic (snd (perform 7 Collision.s_elastic))).
Proof.
  assert (Hid : 7%N <> 0%N) by discriminate.
  split; [exact Hid |].
  apply (proj1 (@perform_checks_conservation World.collaborators
                  Collision.s_elastic 7%N Hid)).
  split; reflexivity.
Defined.

(** C7 on the elastic scattering: the collection is updated in place and
    holds the particles 1 and 2 as before. *)
Lemma perform_commits_example :
  7%N <> 0%N /\
  particles (snd (perform 7 Collision.s_elastic)) =
  fst (World.update Collision.pions Collision.pions
                    (stamped Collision.elastic 7) false) /\
  World.ids (particles (snd (perform 7 Collision.s_elastic))) = [1; 2]%Z.
Proof.
  assert (Hid : 7%N <> 0%N) by discriminate.
  split; [exact Hid |].
  pose proof (proj1 (proj2 (@perform_commits World.collaborators
                              Collision.s_elastic 7%N Hid))) as Hp.
  split; [exact Hp |]. rewrite Hp. reflexivity.
Defined.

(** C9 on the lone omega: the second incoming particle is not there. *)
Lemma sample_masses_incoming_access_example :
  Action.outgoing_particles_ (this Decay.s0) =
    [World.at_rest (-1) World.proton; World.at_rest (-1) World.neutron] /\
  fst (sample_masses World.sqrt_s Decay.s0) = Fail OutOfBounds.
Proof.
  split; [reflexivity |].
  assert (Hlt : kinetic_energy_cms World.sqrt_s (this Decay.s0) <
                threshold (World.at_rest (-1) World.proton)
                          (World.at_rest (-1) World.neutron)).
  { unfold kinetic_energy_cms, kinetic_energy_cms_of, threshold. cbn. lra. }
  exact (proj2 (proj2 (@sample_masses_incoming_access World.collaborators
                         World.sqrt_s Decay.s0 _ _ [] eq_refl))
               _ eq_refl Hlt).
Defined.


(** The pair of pions that scatters elastically has the energy for its
    outgoing pair, and keeps the pole masses. *)
Lemma sample_masses_two_incoming_example :
  (2 <= List.length (Action.incoming_particles_ (this Collision.s_elastic)))%nat /\
  fst (sample_masses World.sqrt_s Collision.s_elastic) = Ok (7 / 50, 7 / 50).
Proof.
  assert (Hlen : (2 <= List.length
                        (Action.incoming_particles_ (this Collision.s_elastic)))%nat)
    by (cbn; lia).
  assert (Hge : threshold (World.particle 1 World.pi_plus (FourVector.mk (1 / 2) 0 0 (12 / 25)))
                          (World.particle 2 World.pi_minus
                             (FourVector.mk (1 / 2) 0 0 (- (12 / 25)))) <=
                kinetic_energy_cms World.sqrt_s (this Collision.s_elastic)).
  { rewrite kinetic_energy_elastic. unfold threshold. cbn. lra. }
  assert (Hok : forall f, fst (sample_masses World.sqrt_s Collision.s_elastic) <> Fail f).
  { intros f.
    destruct (@sample_masses_above World.collaborators World.sqrt_s
                Collision.s_elastic _ _ [] eq_refl Hge) as [m Hm].
    rewrite Hm. discriminate. }
  split; [exact Hlen |].
  exact (proj2 (@sample_masses_two_incoming World.collaborators World.sqrt_s
                  Collision.s_elastic _ _ eq_refl Hlen)
               Hok eq_refl eq_refl).
Defined.

(** A cosine of 2 is refused by [set_costheta] and stays in the object. *)
Lemma set_costheta_throw_keeps_value_example :
  (exists f, fst (Angles.set_costheta 2 Angles.new) = Fail f) /\
  Angles.costheta_ (snd (Angles.set_costheta 2 Angles.new)) = 2.
Proof.
  assert (Hrun : Angles.set_costheta 2 Angles.new =
                 (Fail (Thrown (char_array
                    "Wrong value for costheta (must be in [-1,1]): ")),
                  Angles.mk 0 2)).
  { unfold Angles.set_costheta. cbn.
    replace (Rltb 2 (-1)) with false by (symmetry; apply Rltb_false; lra).
    replace (Rltb 1 2) with true by (symmetry; apply Rltb_true; lra).
    reflexivity. }
  split; [rewrite Hrun; eexists; reflexivity |].
  pose proof (proj1 (set_costheta_throw_keeps_value 2 Angles.new _ _ Hrun)) as Hc.
  rewrite Hrun. exact Hc.
Defined.

(** The elastic scattering of the two pions conserves the snapshot:
    [check_conservation] returns. *)
Lemma check_conservation_conserved_example :
  snapshots_differ (this Collision.s_elastic) = false /\
  fst (check_conservation 7 Collision.s_elastic) = Ok tt.
Proof.
  split; [reflexivity |].
  exact (@check_conservation_conserved World.collaborators
           Collision.s_elastic 7%N eq_refl).
Defined.

(** ** The further properties on the examples *)

(** The tolerances of constants.h in the examples. *)
Lemma tolerances_ordered : 0 <= 1 / 1000000 <= 1 / 10000.
Proof. lra. Defined.

Lemma almost_equal_one : almost_equal (1 / 1000000) 1 1 = true.
Proof.
  apply almost_equal_true. left.
  replace (1 - 1) with 0 by ring. rewrite Rabs_R0. lra.
Defined.

Lemma elastic_above_threshold :
  threshold (World.particle 1 World.pi_plus (FourVector.mk (1 / 2) 0 0 (12 / 25)))
            (World.particle 2 World.pi_minus
               (FourVector.mk (1 / 2) 0 0 (- (12 / 25)))) <=
  kinetic_energy_cms World.sqrt_s (this Collision.s_elastic).
Proof. rewrite kinetic_energy_elastic. unfold threshold. cbn. lra. Defined.

(** Two draws of one half give angles in their ranges. *)
Lemma distribute_isotropically_ranges_example :
  uniform01 World.half /\
  -1 <= Angles.costheta_
          (fst (Angles.distribute_isotropically Angles.new World.half)) < 1.
Proof.
  split; [exact uniform01_half |].
  exact (proj1 (proj2 (distribute_isotropically_ranges
                         Angles.new Angles.new World.half uniform01_half))).
Defined.

(** One is almost equal to one, for physics also. *)
Lemma almost_equal_relation_example :
  0 <= 1 / 1000000 <= 1 / 10000 /\
  almost_equal_physics (1 / 10000) 1 1 = true.
Proof.
  split; [exact tolerances_ordered |].
  exact (proj2 (proj2 (almost_equal_relation (1 / 1000000) (1 / 10000) 1 1
                         tolerances_ordered))
               almost_equal_one).
Defined.

Lemma almost_equal_bound_example :
  0 <= 1 / 1000000 /\ almost_equal (1 / 1000000) 1 1 = true /\
  Rabs (1 - 1) <= 1 / 1000000.
Proof.
  assert (H0 : 0 <= 1 / 1000000) by lra.
  assert (H1 : Rabs 1 <= 1) by (rewrite Rabs_R1; lra).
  split; [exact H0 |]. split; [exact almost_equal_one |].
  exact (proj2 (almost_equal_bound (1 / 1000000) 1 1 H0 almost_equal_one) H1 H1).
Defined.

(** The elastic scattering of the two pions has their own species going
    out: its kinetic energy is [sqrt_s]. *)
Lemma kinetic_energy_cms_same_species_example :
  Permutation (map ParticleData.type (Action.outgoing_particles_ Collision.elastic))
              (map ParticleData.type (Action.incoming_particles_ Collision.elastic)) /\
  kinetic_energy_cms World.sqrt_s Collision.elastic =
  World.sqrt_s Collision.elastic.
Proof.
  assert (Hp : Permutation
                 (map ParticleData.type (Action.outgoing_particles_ Collision.elastic))
                 (map ParticleData.type (Action.incoming_particles_ Collision.elastic)))
    by apply Permutation_refl.
  split; [exact Hp |].
  exact (proj2 (kinetic_energy_cms_same_species World.sqrt_s
                  Collision.elastic Hp)).
Defined.

Lemma sample_masses_elastic :
  fst (sample_masses World.sqrt_s Collision.s_elastic) = Ok (7 / 50, 7 / 50).
Proof.
  rewrite (@sample_masses_stable_pair World.collaborators World.sqrt_s
             Collision.s_elastic _ _ [] eq_refl elastic_above_threshold
             eq_refl eq_refl).
  reflexivity.
Defined.

(** The masses that [sample_masses] returns for the stable pair. *)
Lemma sample_masses_returns_example :
  fst (sample_masses World.sqrt_s Collision.s_elastic) = Ok (7 / 50, 7 / 50) /\
  7 / 50 = ParticleType.mass World.pi_plus.
Proof.
  split; [exact sample_masses_elastic |].
  exact (proj1 (proj2 (@sample_masses_returns World.collaborators World.sqrt_s
                         Collision.s_elastic _ _ [] (7 / 50) (7 / 50)
                         eq_refl sample_masses_elastic))
               eq_refl).
Defined.

(** The final state of the elastic scattering has opposite three-momenta. *)
Lemma sample_2body_phasespace_stable_pair_example :
  ParticleType.is_stable World.pi_plus = true /\
  ParticleType.is_stable World.pi_minus = true /\
  fst (sample_2body_phasespace World.sqrt_s Collision.s_elastic) = Ok tt.
Proof.
  split; [reflexivity |]. split; [reflexivity |].
  exact (proj1 (@sample_2body_phasespace_stable_pair World.collaborators
                  World.sqrt_s Collision.s_elastic _ _ eq_refl eq_refl eq_refl
                  elastic_above_threshold)).
Defined.

(** [perform] on the elastic scattering does not touch the random
    source. *)
Lemma perform_frame_example :
  7%N <> 0%N /\
  random (snd (perform 7 Collision.s_elastic)) = World.half.
Proof.
  assert (Hid : 7%N <> 0%N) by discriminate.
  split; [exact Hid |].
  exact (proj1 (@perform_frame World.collaborators Collision.s_elastic 7%N Hid)).
Defined.

(** The pair of pions that is turned into a lone proton: [perform] throws
    and the collection already holds the proton in the place of the first
    pion. *)
Lemma perform_violation_after_update_example :
  snapshots_differ (this (committed 7 Collision.s_violating)) = true /\
  (exists what,
     fst (perform 7 Collision.s_violating) = Fail (Thrown (runtime_error what))) /\
  map ParticleData.pdgcode (particles (snd (perform 7 Collision.s_violating))) =
    [0x2212; - 0x211]%Z.
Proof.
  assert (Hid : 7%N <> 0%N) by discriminate.
  assert (Hl : no_lattice (this Collision.s_violating)) by (split; reflexivity).
  assert (Hd : snapshots_differ (this (committed 7 Collision.s_violating)) = true)
    by reflexivity.
  destruct (@perform_violation_after_update World.collaborators
              Collision.s_violating 7%N Hid Hl Hd eq_refl) as (Hf & Hp & _).
  split; [exact Hd |]. split; [exact Hf |]. rewrite Hp. reflexivity.
Defined.

(** An elastic channel offered to three pions is refused. *)
Lemma generate_final_state_unsupported_example :
  CollisionBranch.get_type
    (fst (choose_channel (ScatterActionMulti.reaction_channels_ (this Unsupported.s0))
            (ScatterActionMulti.total_probability_ (this Unsupported.s0))
            (random Unsupported.s0))) <> MultiParticleThreePionsToOmega /\
  fst (generate_final_state Unsupported.s0) =
    Fail (Thrown (invalid_process_type Elastic)).
Proof.
  assert (Hty : CollisionBranch.get_type
                  (fst (choose_channel
                          (ScatterActionMulti.reaction_channels_ (this Unsupported.s0))
                          (ScatterActionMulti.total_probability_ (this Unsupported.s0))
                          (random Unsupported.s0))) <>
                MultiParticleThreePionsToOmega)
    by (cbn; discriminate).
  split; [exact Hty |].
  exact (proj1 (@generate_final_state_unsupported World.collaborators
                  Unsupported.s0 Hty)).
Defined.

Lemma generate_final_state_three_pions_ok :
  fst (generate_final_state ThreePions.s0) = Ok tt.
Proof.
  rewrite (@generate_final_state_choice World.collaborators ThreePions.s0
             ThreePions.to_omega (shift 1 World.half) eq_refl eq_refl).
  rewrite (@annihilation_one World.collaborators
             (with_channel ThreePions.to_omega (shift 1 World.half) ThreePions.s0)
             (ParticleData.mk (-1) World.omega FourVector.zero FourVector.zero
                              HistoryData.initial)
             eq_refl).
  reflexivity.
Defined.

(** The three pions fuse: the action ends with one outgoing particle and
    the weight of the channel. *)
Lemma generate_final_state_returns_example :
  fst (generate_final_state ThreePions.s0) = Ok tt /\
  get_partial_weight (this (snd (generate_final_state ThreePions.s0))) = 1.
Proof.
  split; [exact generate_final_state_three_pions_ok |].
  exact (proj1 (proj2 (proj2 (@generate_final_state_returns World.collaborators
                                ThreePions.s0
                                generate_final_state_three_pions_ok)))).
Defined.
